(** * mvpa.clfs.stats: estimators for null-hypothesis distributions

    A shallow embedding of [mvpa/clfs/stats.py]: the non-parametric
    distribution [Nonparametric], the p-value helper [_pvalue], the
    classes [NullDist], [MCNullDist] and [FixedNullDist], and the
    distribution search [matchDistribution].

    Conventions of the embedding.
    - Python floats are exact rationals ([Q]); results of foreign tests
      that may be [nan] use [pyfloat].  The rounding of a quotient or a
      difference is not modelled: a statement names the operations the
      code performs, or states a sign or an order that rounding keeps,
      or leaves a margin where a computed quotient is compared with an
      independent number.
    - An array handed to [cdf] or [_pvalue] is given by its elements in
      C order ([Arr]); the operations applied to it there are elementwise
      or flatten it ([reshape((-1,))]).  Arrays whose shape matters (the
      samples collected by [MCNullDist.fit]) are [ndarray] records.
    - Exceptions are values of [exn]; a computation that may raise returns
      a [result]; methods that also mutate objects live in the state and
      exception monad [M]. *)

From Stdlib Require Import String Ascii Bool Arith ZArith QArith Qminmax Lia Lqa List.
From Stdlib Require Import Sorting.Sorted Sorting.Permutation.
Import ListNotations.

Local Open Scope string_scope.
Local Open Scope list_scope.
Local Open Scope Q_scope.

(* ===================================================================== *)
(** ** Exceptions and results *)

Inductive exn : Type :=
| ValueError
| RuntimeError
| NotImplementedError
| TypeError
| IndexError
| AttributeError
| UnboundLocalError
| ForeignError (msg : string).

Inductive result (A : Type) : Type :=
| Ok (a : A)
| Raise (e : exn).

Arguments Ok {A} a.
Arguments Raise {A} e.

Definition rbind {A B} (c : result A) (k : A -> result B) : result B :=
  match c with
  | Ok a => k a
  | Raise e => Raise e
  end.

Declare Scope result_scope.
Delimit Scope result_scope with result.
Notation "x <- c ;; k" := (rbind c (fun x => k))
  (at level 100, c at next level, right associativity) : result_scope.

(** A loop body applied in turn to the elements of a list, collecting
    the results; the first exception ends the loop. *)
Fixpoint map_result {A B} (f : A -> result B) (l : list A) : result (list B) :=
  match l with
  | [] => Ok []
  | a :: l' =>
      match f a with
      | Raise e => Raise e
      | Ok b =>
          match map_result f l' with
          | Raise e => Raise e
          | Ok bs => Ok (b :: bs)
          end
      end
  end.

(* ===================================================================== *)
(** ** Values and the numpy operations the module uses *)

(** What a caller may pass as [x]: a scalar ([N.isscalar(x)]) or an
    array-like, the latter given by its elements in C order. *)
Inductive value : Type :=
| Scalar (v : Q)
| Arr (a : list Q).

Definition isscalar (x : value) : bool :=
  match x with
  | Scalar _ => true
  | Arr _ => false
  end.

(** The Python expression [[x]] for a scalar [x]. *)
Definition list1 (x : value) : value :=
  match x with
  | Scalar v => Arr [v]
  | Arr a => Arr a
  end.

(** Number of elements, a scalar counting as one. *)
Definition size (x : value) : nat :=
  match x with
  | Scalar _ => 1%nat
  | Arr a => length a
  end.

(** [N.asanyarray(x).reshape((-1,))]: the elements as a 1-d array.  With
    a single unknown dimension and no known one the reshape always
    succeeds. *)
Definition flat (x : value) : list Q :=
  match x with
  | Scalar v => [v]
  | Arr a => a
  end.

(** An n-dimensional array: its shape and its elements in C order. *)
Record ndarray : Type := mk_ndarray {
  shape : list nat;
  data : list Q
}.

Definition ndsize (a : ndarray) : nat := fold_right Nat.mul 1%nat (shape a).

(** [N.ravel]. *)
Definition ravel (a : ndarray) : list Q := data a.

Definition scalar_of (x : value) : Q :=
  match x with
  | Scalar v => v
  | Arr a => hd 0 a
  end.

Definition is_array_of (k : nat) (x : value) : bool :=
  match x with
  | Scalar _ => false
  | Arr a => Nat.eqb (length a) k
  end.

(** [N.asarray] of a Python list of measurements.  A list of [P] scalars
    becomes an array of shape [(P,)], a list of [P] arrays with [k]
    elements each one of shape [(P, k)] (trailing axes are kept flattened:
    the only later use is [reshape((shape[0], -1))]); the empty list has
    shape [(0,)].  Lists mixing scalars and arrays, or arrays of different
    lengths, do not form a numeric array. *)
Definition asarray (l : list value) : result ndarray :=
  match l with
  | [] => Ok (mk_ndarray [0%nat] [])
  | Scalar _ :: _ =>
      if forallb isscalar l
      then Ok (mk_ndarray [length l] (map scalar_of l))
      else Raise ValueError
  | Arr a :: _ =>
      if forallb (is_array_of (length a)) l
      then Ok (mk_ndarray [length l; length a] (flat_map flat l))
      else Raise ValueError
  end.

(** [a[:, N.newaxis]]: a new axis of length one after the first. *)
Definition newaxis1 (a : ndarray) : ndarray :=
  match shape a with
  | [] => a
  | d0 :: rest => mk_ndarray (d0 :: 1%nat :: rest) (data a)
  end.

(** [a.reshape(newshape)] where an entry [None] stands for [-1].  As in
    numpy: at most one dimension may be unknown; it is inferred as
    [size / known] and the reshape is refused when the product of the
    known dimensions is zero or does not divide the size; without an
    unknown dimension the sizes must agree. *)
Definition reshape (a : ndarray) (newshape : list (option nat)) : result ndarray :=
  let s_original := ndsize a in
  let s_known :=
    fold_right (fun d acc => match d with Some n => (n * acc)%nat | None => acc end)
               1%nat newshape in
  let unknowns := length (filter (fun d => match d with None => true | Some _ => false end)
                                 newshape) in
  match unknowns with
  | O =>
      if Nat.eqb s_known s_original
      then Ok (mk_ndarray (map (fun d => match d with Some n => n | None => 0%nat end) newshape)
                          (data a))
      else Raise ValueError
  | S O =>
      if Nat.eqb s_known 0 || negb (Nat.eqb (s_original mod s_known) 0)
      then Raise ValueError
      else Ok (mk_ndarray
                 (map (fun d => match d with
                                | Some n => n
                                | None => (s_original / s_known)%nat
                                end) newshape)
                 (data a))
  | _ => Raise ValueError
  end.

(** Iterating over [a.T] for a 2-d array [a]: one row of the transpose,
    that is one column of [a], at a time. *)
Definition columns (a : ndarray) : list ndarray :=
  match shape a with
  | [r; c] =>
      map (fun j => mk_ndarray [r] (map (fun i => nth (i * c + j) (data a) 0) (seq 0 r)))
          (seq 0 c)
  | _ => []
  end.

(** [N.vectorize(f)(x)]: [f] on a scalar, on every element of an array;
    numpy refuses an input without elements (it calls [f] on the first
    element to find the output type). *)
Definition vectorize (f : Q -> Q) (x : value) : result value :=
  match x with
  | Scalar v => Ok (Scalar (f v))
  | Arr [] => Raise ValueError
  | Arr a => Ok (Arr (map f a))
  end.

(** [samples <= v] for an array [samples] and a scalar [v]. *)
Definition le_scalar (samples : list Q) (v : Q) : list bool :=
  map (fun s => Qle_bool s v) samples.

Definition Q_of_bool (b : bool) : Q := if b then 1 else 0.

Definition Q_of_nat (n : nat) : Q := inject_Z (Z.of_nat n).

(** [.mean()] of a boolean array: the sum of its entries, [True]
    counting as one, over their number. *)
Definition mean (l : list bool) : Q :=
  fold_right Qplus 0 (map Q_of_bool l) / Q_of_nat (length l).

(** [1 - cdf] on a whole value. *)
Definition rsub (c : Q) (x : value) : value :=
  match x with
  | Scalar v => Scalar (c - v)
  | Arr a => Arr (map (fun v => c - v) a)
  end.

(** [cdf >= c]: the boolean mask. *)
Definition ge_mask (a : list Q) (c : Q) : list bool :=
  map (fun v => Qle_bool c v) a.

(** [a[mask]]: the elements selected by a boolean mask. *)
Fixpoint getitem_mask (a : list Q) (mask : list bool) : list Q :=
  match a, mask with
  | v :: a', b :: mask' =>
      if b then v :: getitem_mask a' mask' else getitem_mask a' mask'
  | _, _ => []
  end.

(** [a[mask] = vals]: the selected positions take the given values in
    order. *)
Fixpoint setitem_mask (a : list Q) (mask : list bool) (vals : list Q) : list Q :=
  match a, mask with
  | v :: a', b :: mask' =>
      if b
      then match vals with
           | w :: vals' => w :: setitem_mask a' mask' vals'
           | [] => v :: setitem_mask a' mask' []
           end
      else v :: setitem_mask a' mask' vals
  | _, _ => a
  end.

(** [cdf[0]]. *)
Definition getitem0 (x : value) : result value :=
  match x with
  | Scalar _ => Raise TypeError
  | Arr [] => Raise IndexError
  | Arr (v :: _) => Ok (Scalar v)
  end.

(* ===================================================================== *)
(** ** class Nonparametric *)

Module Nonparametric.

Record t : Type := mk { _dist_samples : list Q }.

Definition __init__ (dist_samples : ndarray) : t :=
  mk (ravel dist_samples).

(** The static method [fit]: the argument list for the constructor. *)
Definition fit (dist_samples : ndarray) : list ndarray := [dist_samples].

Definition cdf (self : t) (x : value) : result value :=
  vectorize (fun v => mean (le_scalar (_dist_samples self) v)) x.

End Nonparametric.

(* ===================================================================== *)
(** ** _pvalue *)

Definition _pvalue (x : value) (cdf_func : value -> result value) (tail : string)
  : result value :=
  let is_scalar := isscalar x in
  let x := if is_scalar then list1 x else x in
  (cdf <- cdf_func x ;;
   cdf <- (if tail =? "left" then Ok cdf
           else if tail =? "right" then Ok (rsub 1 cdf)
           else if tail =? "any" then
             match cdf with
             | Scalar _ => Raise TypeError
             | Arr c =>
                 let right_tail := ge_mask c (1 # 2) in
                 Ok (Arr (setitem_mask c right_tail
                            (map (fun v => 1 - v) (getitem_mask c right_tail))))
             end
           else Ok cdf) ;;
   if is_scalar then getitem0 cdf else Ok cdf)%result.

(* ===================================================================== *)
(** ** class NullDist and the interface of its subclasses *)

(** What [NullDist.p] needs of [self]: the stored tail and the [cdf]
    method, which every subclass overrides. *)
Class NullDistMethods (T : Type) : Type := {
  _tail : T -> string;
  cdf : T -> value -> result value
}.

(** [NullDist.p], inherited unchanged by the subclasses. *)
Definition p {T : Type} `{NullDistMethods T} (self : T) (x : value) : result value :=
  _pvalue x (cdf self) (_tail self).

Module NullDist.

Record t : Type := mk { _tail : string }.

(** [Stateful.__init__] only registers state collections; the sanity
    check on [tail] follows the assignment. *)
Definition __init__ (tail : string) : result t :=
  let self := mk tail in
  if negb (existsb (String.eqb tail) ["left"; "right"; "any"])
  then Raise ValueError
  else Ok self.

Definition fit : result unit := Raise NotImplementedError.

Definition cdf (self : t) (x : value) : result value := Raise NotImplementedError.

End NullDist.

#[export] Instance NullDist_methods : NullDistMethods NullDist.t := {
  _tail := NullDist._tail;
  cdf := NullDist.cdf
}.

(* ===================================================================== *)
(** ** Distribution classes usable as [dist_class] *)

(** A class that estimates parameters with [fit], is instantiated as
    [dist_class( *params )], and whose instances answer [cdf] at a scalar
    with a scalar.  Fitting and instantiating may raise. *)
Class DistClass (D : Type) : Type := {
  dc_params : Type;
  dc_fit : ndarray -> result dc_params;
  dc_new : dc_params -> result D;
  dc_cdf : D -> Q -> Q
}.

(** [f( *args )] for a function of one positional parameter. *)
Definition apply_star {A B} (f : A -> B) (args : list A) : result B :=
  match args with
  | [a] => Ok (f a)
  | _ => Raise TypeError
  end.

(** [Nonparametric] as a [dist_class].  [dist.cdf(v)] at a scalar is the
    vectorized function at that scalar. *)
#[export] Instance Nonparametric_class : DistClass Nonparametric.t := {
  dc_params := list ndarray;
  dc_fit := fun samples => Ok (Nonparametric.fit samples);
  dc_new := apply_star Nonparametric.__init__;
  dc_cdf := fun self v => mean (le_scalar (Nonparametric._dist_samples self) v)
}.

(* ===================================================================== *)
(** ** The state and exception monad *)

Definition M (St A : Type) : Type := St -> result A * St.

Definition mret {St A} (a : A) : M St A := fun s => (Ok a, s).

Definition mbind {St A B} (c : M St A) (k : A -> M St B) : M St B :=
  fun s =>
    match c s with
    | (Ok a, s') => k a s'
    | (Raise e, s') => (Raise e, s')
    end.

Definition lift {St A} (r : result A) : M St A := fun s => (r, s).

Definition gets {St A} (f : St -> A) : M St A := fun s => (Ok (f s), s).

Definition modify {St} (f : St -> St) : M St unit := fun s => (Ok tt, f s).

Declare Scope M_scope.
Delimit Scope M_scope with M.
Notation "x <- c ;; k" := (mbind c (fun x => k))
  (at level 100, c at next level, right associativity) : M_scope.
Notation "c ;; k" := (mbind c (fun _ => k))
  (at level 100, right associativity) : M_scope.

(** [for a in l: acc = body(a, acc)]. *)
Fixpoint for_each {St A B} (l : list A) (body : A -> B -> M St B) (acc : B) : M St B :=
  match l with
  | [] => mret acc
  | a :: l' => (acc' <- body a acc ;; for_each l' body acc')%M
  end.

(** [xrange(n)]. *)
Definition xrange (n : Z) : list Z := map Z.of_nat (seq 0 (Z.to_nat n)).

(* ===================================================================== *)
(** ** The working dataset *)

Module Dataset.

(** Modelled from the spec: the class [Dataset] (mvpa.datasets) is not
    among the sources.  The sampler "repeatedly perturbs input labels"
    and [fit] ends by a call meant to "restore original labels", so a
    dataset carries its labels and, while permuted, the original
    ones. *)
Record t : Type := mk {
  labels : list Z;
  origlabels : option (list Z)
}.

(** Modelled from the spec: [Dataset.permuteLabels] is not among the
    sources.  [permuteLabels(True, perchunk=False)] gives "a new
    permutation all the time", keeping the original labels of an
    unpermuted dataset aside; [permuteLabels(False, perchunk=False)]
    does "restore original labels".  The random permutation drawn by a
    call is the argument [perm]. *)
Definition permuteLabels (status : bool) (perm : list Z -> list Z) (self : t) : t :=
  if status
  then mk (perm (labels self))
          (match origlabels self with
           | None => Some (labels self)
           | Some o => Some o
           end)
  else match origlabels self with
       | Some o => mk o None
       | None => self
       end.

End Dataset.

(** Calls that [MCNullDist.fit] makes on its arguments, in order. *)
Inductive event : Type :=
| PermuteLabels (status : bool)
| Measure.

(* ===================================================================== *)
(** ** class MCNullDist *)

Module MCNullDist.
Section WithDistClass.

Context {D : Type} `{DistClass D}.

(** [_dist] may hold Python's [None].  [dist_samples] is the value last
    assigned to the state variable of that name, [None] before any
    assignment (the bookkeeping of mvpa.misc.state, which is not among
    the sources, is a plain attribute here). *)
Record t : Type := mk {
  base : NullDist.t;
  _dist : option (list D);
  __permutations : Z;
  dist_samples : option ndarray
}.

(** Defaults of the source: [permutations=100], [tail='left']. *)
Definition __init__ (permutations : Z) (tail : string) : result t :=
  (base <- NullDist.__init__ tail ;;
   Ok (mk base (Some []) permutations None))%result.

(** What [fit] reads and mutates: the instance, the working dataset
    and the log of calls made on the arguments. *)
Record world : Type := mk_world {
  self : t;
  wdata : Dataset.t;
  calls : list event
}.

Definition call_permuteLabels (status : bool) (perm : list Z -> list Z) : M world unit :=
  modify (fun w => mk_world (self w)
                            (Dataset.permuteLabels status perm (wdata w))
                            (calls w ++ [PermuteLabels status])).

Definition call_measure (measure : list Dataset.t -> result value)
           (measure_args : Dataset.t -> list Dataset.t) : M world value :=
  fun w =>
    (measure (measure_args (wdata w)),
     mk_world (self w) (wdata w) (calls w ++ [Measure])).

Definition set_dist_samples (a : ndarray) : M world unit :=
  modify (fun w =>
    mk_world (mk (base (self w)) (_dist (self w)) (__permutations (self w)) (Some a))
             (wdata w) (calls w)).

Definition set_dist (dist : list D) : M world unit :=
  modify (fun w =>
    mk_world (mk (base (self w)) (Some dist) (__permutations (self w))
                 (dist_samples (self w)))
             (wdata w) (calls w)).

(** The arguments to [measure]; [wdata] is the working dataset as it
    is at the time of the call. *)
Definition measure_args (vdata : option Dataset.t) (wdata : Dataset.t)
  : list Dataset.t :=
  match vdata with
  | Some vdata => [vdata; wdata]
  | None => [wdata]
  end.

(** One cycle of the loop of [fit]. *)
Definition cycle (measure : list Dataset.t -> result value)
           (vdata : option Dataset.t)
           (permutation : Z -> list Z -> list Z)
           (p : Z) (dist_samples : list value) : M world (list value) :=
  (call_permuteLabels true (permutation p) ;;
   m <- call_measure measure (measure_args vdata) ;;
   mret (dist_samples ++ [m]))%M.

(** The body of the loop over the elements: fit the parameters to the
    samples of one element and instantiate the class with them. *)
Definition fit_element (samples : ndarray) : result D :=
  (params <- dc_fit samples ;;
   dc_new params)%result.

(** [fit(measure, wdata, vdata)].  [permutation p] is the random
    permutation drawn in cycle [p]; [vdata] is held constant. *)
Definition fit (measure : list Dataset.t -> result value)
           (vdata : option Dataset.t)
           (permutation : Z -> list Z -> list Z) : M world unit :=
  (let dist_samples : list value := [] in
   permutations <- gets (fun w => __permutations (self w)) ;;
   dist_samples <-
     for_each (xrange permutations) (cycle measure vdata permutation)
              dist_samples ;;
   call_permuteLabels false (fun l => l) ;;
   dist_samples <- lift (asarray dist_samples) ;;
   set_dist_samples dist_samples ;;
   let shape := shape dist_samples in
   let nshape := length shape in
   let dist_samples :=
     if Nat.eqb nshape 1 then newaxis1 dist_samples else dist_samples in
   dist_samples_rs <- lift (reshape dist_samples [Some (hd 0%nat shape); None]) ;;
   dist <- lift (map_result fit_element (columns dist_samples_rs)) ;;
   set_dist dist)%M.

Definition cdf (self : t) (x : value) : result value :=
  match _dist self with
  | None => Raise RuntimeError
  | Some dists =>
      let is_scalar := isscalar x in
      let x := if is_scalar then list1 x else x in
      let x := flat x in
      if negb (Nat.eqb (length dists) (length x))
      then Raise ValueError
      else
        let cdfs := map (fun vd => dc_cdf (snd vd) (fst vd)) (combine x dists) in
        Ok (Arr cdfs)
  end.

Definition clean (self : t) : t :=
  mk (base self) (Some []) (__permutations self) (dist_samples self).

End WithDistClass.
End MCNullDist.

Arguments MCNullDist.t D : clear implicits.
Arguments MCNullDist.world D : clear implicits.

#[export] Instance MCNullDist_methods {D : Type} `{DistClass D}
  : NullDistMethods (MCNullDist.t D) := {
  _tail := fun self => NullDist._tail (MCNullDist.base self);
  cdf := MCNullDist.cdf
}.

(* ===================================================================== *)
(** ** class FixedNullDist *)

Module FixedNullDist.

(** [_dist] is any object with a [cdf] method; it is kept as that
    method. *)
Record t : Type := mk {
  base : NullDist.t;
  _dist : value -> result value
}.

Definition __init__ (dist : value -> result value) (tail : string) : result t :=
  (base <- NullDist.__init__ tail ;;
   Ok (mk base dist))%result.

Definition fit : result unit := Ok tt.

Definition cdf (self : t) (x : value) : result value := _dist self x.

End FixedNullDist.

#[export] Instance FixedNullDist_methods : NullDistMethods FixedNullDist.t := {
  _tail := fun self => NullDist._tail (FixedNullDist.base self);
  cdf := FixedNullDist.cdf
}.

(* ===================================================================== *)
(** ** matchDistribution *)

(** A float that a foreign routine may return as [nan]. *)
Inductive pyfloat : Type :=
| NaN
| Fin (q : Q).

Definition isnan (a : pyfloat) : bool :=
  match a with
  | NaN => true
  | Fin _ => false
  end.

Definition Qlt_bool (x y : Q) : bool := negb (Qle_bool y x).

(** Comparisons with [nan] are false. *)
Definition fgt (a : pyfloat) (b : Q) : bool :=
  match a with
  | NaN => false
  | Fin x => Qlt_bool b x
  end.

Definition flt (a b : pyfloat) : bool :=
  match a, b with
  | Fin x, Fin y => Qlt_bool x y
  | _, _ => false
  end.

Definition feq (a b : pyfloat) : bool :=
  match a, b with
  | Fin x, Fin y => Qeq_bool x y
  | _, _ => false
  end.

(** An entry [(D, d, dist_params)] of the results. *)
Definition entry : Type := pyfloat * string * list Q.

Definition entry_D (r : entry) : pyfloat := fst (fst r).
Definition entry_name (r : entry) : string := snd (fst r).
Definition entry_params (r : entry) : list Q := snd r.

(** [<] on tuples of floats. *)
Fixpoint params_lt (a b : list Q) : bool :=
  match a, b with
  | [], [] => false
  | [], _ :: _ => true
  | _ :: _, [] => false
  | x :: a', y :: b' => if Qeq_bool x y then params_lt a' b' else Qlt_bool x y
  end.

(** [<] on the result tuples: the first component that differs
    decides. *)
Definition entry_lt (a b : entry) : bool :=
  if negb (feq (entry_D a) (entry_D b)) then flt (entry_D a) (entry_D b)
  else if negb (entry_name a =? entry_name b)
       then String.ltb (entry_name a) (entry_name b)
       else params_lt (entry_params a) (entry_params b).

(** [list.sort()] is a stable sort by [<]; it is modelled by the binary
    insertion it uses on short runs: each element goes before the first
    one it is smaller than. *)
Fixpoint insert (x : entry) (l : list entry) : list entry :=
  match l with
  | [] => [x]
  | y :: l' => if entry_lt x y then x :: y :: l' else y :: insert x l'
  end.

Definition sort (l : list entry) : list entry :=
  fold_left (fun sorted x => insert x sorted) l [].

(** [x <= thr] elementwise. *)
Definition le_thr (x : value) (thr : Q) : list bool :=
  map (fun v => Qle_bool v thr) (flat x).

(** [N.sum] of a boolean array. *)
Definition count_true (l : list bool) : nat :=
  length (filter (fun b => b) l).

Fixpoint zip_xor (a b : list bool) : list bool :=
  match a, b with
  | x :: a', y :: b' => xorb x y :: zip_xor a' b'
  | _, _ => []
  end.

(** [N.abs(a - b)] on boolean arrays, with numpy's broadcasting of a
    one-element operand; other length mismatches are refused. *)
Definition abs_diff (a b : list bool) : result (list bool) :=
  if Nat.eqb (length a) (length b) then Ok (zip_xor a b)
  else match a, b with
       | [x], _ => Ok (map (xorb x) b)
       | _, [y] => Ok (map (fun x => xorb x y) a)
       | _, _ => Raise ValueError
       end.

(** A distribution generator of [scipy.stats]: its [fit] and its [cdf]
    (called as [cdf(x, *params)]). *)
Record dist_gen : Type := mk_dist_gen {
  gen_fit : list Q -> result (list Q);
  gen_cdf : value -> list Q -> result value
}.

(** The keyword arguments the tests read. *)
Record kwargs : Type := mk_kwargs {
  kw_p : option Q;
  kw_tail : option string
}.

(** What the ['p-roc'] preamble leaves in local variables. *)
Record proc_locals : Type := mk_proc_locals {
  pl_tail : string;
  pl_data_p_thr : list bool;
  pl_true_positives : nat
}.

Section MatchDistribution.

(** [getattr(scipy.stats, d)], [scipy.stats.kstest] and
    [scipy.stats.distributions.__all__]. *)
Variable scipy_stats : string -> option dist_gen.
Variable kstest : list Q -> string -> list Q -> result (pyfloat * pyfloat).
Variable all_distributions : list string.

Definition getattr_scipy_stats (d : string) : result dist_gen :=
  match scipy_stats d with
  | Some g => Ok g
  | None => Raise AttributeError
  end.

(** The body of the [try] for candidate [d]: the values of [D], [p]
    and [dist_params] it leaves, or the exception it raises. *)
Definition try_body (data : list Q) (test : string) (p_thr : Q)
           (locals : option proc_locals) (d : string)
  : result (pyfloat * pyfloat * list Q) :=
  (dist_gen <- getattr_scipy_stats d ;;
   dist_params <- gen_fit dist_gen data ;;
   if test =? "p-roc" then
     match locals with
     | None => Raise UnboundLocalError
     | Some locals =>
         let cdf_func := fun x => gen_cdf dist_gen x dist_params in
         cdf_p <- _pvalue (Arr data) cdf_func (pl_tail locals) ;;
         let cdf_p_thr := le_thr cdf_p p_thr in
         diff <- abs_diff (pl_data_p_thr locals) cdf_p_thr ;;
         Ok (Fin (Q_of_nat (count_true diff) * 1
                  / Q_of_nat (pl_true_positives locals)),
             Fin 1, dist_params)
     end
   else if test =? "kstest" then
     Dp <- kstest data d dist_params ;;
     Ok (fst Dp, snd Dp, dist_params)
   else Raise UnboundLocalError)%result.

(** One iteration of [for d in distributions]. *)
Definition loop_body (data : list Q) (test : string) (p_thr : Q)
           (locals : option proc_locals) (results : list entry) (d : string)
  : list entry :=
  match try_body data test p_thr locals d with
  | Raise _ => results
  | Ok (D, p, dist_params) =>
      if fgt p p_thr && negb (isnan D)
      then results ++ [(D, d, dist_params)]
      else results
  end.

(** The ['p-roc'] preamble.  The message of the [ValueError] it means
    to raise is formatted with the local [p], which is not yet bound
    there. *)
Definition proc_preamble (data : list Q) (p_thr : Q) (kw : kwargs)
  : result proc_locals :=
  (let tail := match kw_tail kw with Some t => t | None => "any" end in
   let data := ravel (mk_ndarray [length data] data) in
   data_p <- _pvalue (Arr data)
               (Nonparametric.cdf
                  (Nonparametric.__init__ (mk_ndarray [length data] data)))
               tail ;;
   let data_p_thr := le_thr data_p p_thr in
   let true_positives := count_true data_p_thr in
   if Nat.eqb true_positives 0
   then Raise UnboundLocalError
   else Ok (mk_proc_locals tail data_p_thr true_positives))%result.

(** [kwargs.get('p', 0.05)]. *)
Definition p_threshold (kw : kwargs) : Q :=
  match kw_p kw with
  | Some v => v
  | None => 5 # 100
  end.

(** The locals bound before the loop, for either test. *)
Definition preamble (data : list Q) (test : string) (p_thr : Q) (kw : kwargs)
  : result (option proc_locals) :=
  (if test =? "p-roc"
   then (l <- proc_preamble data p_thr kw ;; Ok (Some l))
   else Ok None)%result.

Definition matchDistribution (data : list Q) (test : string)
           (distributions : option (list string)) (kw : kwargs)
  : result (list entry) :=
  (let _KNOWN_TESTS := ["p-roc"; "kstest"] in
   if negb (existsb (String.eqb test) _KNOWN_TESTS) then Raise ValueError
   else
     let p_thr := p_threshold kw in
     locals <- preamble data test p_thr kw ;;
     let distributions :=
       match distributions with
       | None => all_distributions
       | Some l => l
       end in
     let results :=
       fold_left (loop_body data test p_thr locals) distributions [] in
     Ok (sort results))%result.

End MatchDistribution.

(* ===================================================================== *)
(** * Vocabulary of the statements *)

(** The number of stored samples that are less than or equal to [x]. *)
Definition count_le (s : list Q) (x : Q) : nat :=
  length (filter (fun e => Qle_bool e x) s).

(** The empirical probability that a sample is [<= x]. *)
Definition empirical_cdf (s : list Q) (x : Q) : Q :=
  Q_of_nat (count_le s x) / Q_of_nat (length s).


(** The p-value that [_pvalue] computes from one cdf value [c]. *)
Definition tail_value (tail : string) (c : Q) : Q :=
  if tail =? "left" then c
  else if tail =? "right" then 1 - c
  else if tail =? "any" then (if Qle_bool (1 # 2) c then 1 - c else c)
  else c.

(** A distribution object whose [cdf] applies a function to a scalar
    and to every element of an array, as the frozen distributions of
    [scipy.stats] do. *)
Definition elementwise (F : Q -> Q) (x : value) : result value :=
  match x with
  | Scalar v => Ok (Scalar (F v))
  | Arr a => Ok (Arr (map F a))
  end.

(** Sample objects for the closed instances below. *)
(** A distribution class fits every sample: neither its [fit] nor its
    constructor raises. *)
Definition fits_every (D : Type) `{DistClass D} : Prop :=
  forall samples, exists params d,
    dc_fit samples = Ok params /\ dc_new params = Ok d.

Definition sample_dists : list Nonparametric.t :=
  [Nonparametric.mk [1; 2; 3]; Nonparametric.mk [0; 5]].

Definition sample_mc (tail : string) : MCNullDist.t Nonparametric.t :=
  MCNullDist.mk (NullDist.mk tail) (Some sample_dists) 3 None.

Definition sample_fixed (tail : string) : FixedNullDist.t :=
  FixedNullDist.mk (NullDist.mk tail)
                   (Nonparametric.cdf (Nonparametric.mk [1; 2; 3; 4])).

(** The values the [tail] argument may take. *)
Definition known_tails : list string := ["left"; "right"; "any"].

(** The labels that [permuteLabels(False)] brings back. *)
Definition original (ds : Dataset.t) : list Z :=
  match Dataset.origlabels ds with
  | Some o => o
  | None => Dataset.labels ds
  end.

(** The working dataset as it is in the successive cycles [ps]. *)
Fixpoint permuted (permutation : Z -> list Z -> list Z) (wdata : Dataset.t)
         (ps : list Z) : list Dataset.t :=
  match ps with
  | [] => []
  | p :: ps' =>
      let wd := Dataset.permuteLabels true (permutation p) wdata in
      wd :: permuted permutation wd ps'
  end.

(** The calls of [n] cycles: a permutation, then a measurement. *)
Fixpoint cycles (n : nat) : list event :=
  match n with
  | O => []
  | S n' => PermuteLabels true :: Measure :: cycles n'
  end.

(** The output of a measurement has [k] elements. *)
Definition has_elements (k : nat) (scalar : bool) (v : value) : Prop :=
  isscalar v = scalar /\ size v = k.

(** A measure whose output always has [k] elements: always a scalar
    ([k = 1]) or always an array of [k] elements. *)
Definition measure_has (k : nat) (measure : list Dataset.t -> result value) : Prop :=
  exists scalar : bool,
    forall args, exists v, measure args = Ok v /\ has_elements k scalar v.

(** A constant measure, and a world to run [fit] in. *)
Definition const_measure (v : value) (args : list Dataset.t) : result value := Ok v.

(** A measure that reads the working dataset: the first label and the
    number of labels. *)
Definition label_measure (args : list Dataset.t) : result value :=
  let wdata := last args (Dataset.mk [] None) in
  Ok (Arr [inject_Z (hd 0%Z (Dataset.labels wdata));
           Q_of_nat (length (Dataset.labels wdata))]).

Definition reverse_labels (p : Z) (l : list Z) : list Z := rev l.

Definition sample_world (permutations : Z) : MCNullDist.world Nonparametric.t :=
  MCNullDist.mk_world
    (MCNullDist.mk (NullDist.mk "left") (Some []) permutations None)
    (Dataset.mk [0; 0; 1; 1]%Z None)
    [].

(** The instance and the dataset after fitting with three permutations. *)
Definition sample_fit_run
  : result unit * MCNullDist.world Nonparametric.t :=
  MCNullDist.fit label_measure None reverse_labels (sample_world 3).

Definition sample_fitted : MCNullDist.t Nonparametric.t :=
  MCNullDist.self (snd sample_fit_run).

Definition sample_fitted_dists : list Nonparametric.t :=
  match MCNullDist._dist sample_fitted with
  | Some dists => dists
  | None => []
  end.

(** The distance of an entry is a number. *)
Definition finite_D (r : entry) : Prop := isnan (entry_D r) = false.

(** The distance of [a] is at most that of [b]. *)
Definition D_le (a b : entry) : Prop :=
  match entry_D a, entry_D b with
  | Fin x, Fin y => x <= y
  | _, _ => False
  end.

(** A small stand-in for [scipy.stats]: ["norm"] and ["expon"] fit,
    ["cauchy"] fails to fit, ["gamma"] fits but its test fails, and
    nothing else is known. *)
Definition toy_stats (d : string) : option dist_gen :=
  if d =? "norm" then Some (mk_dist_gen (fun data => Ok [0; 1]) (fun x ps => elementwise (fun v => v) x))
  else if d =? "expon" then Some (mk_dist_gen (fun data => Ok [1]) (fun x ps => elementwise (fun v => v) x))
  else if d =? "cauchy" then Some (mk_dist_gen (fun data => Raise (ForeignError "fit")) (fun x ps => Raise TypeError))
  else if d =? "gamma" then Some (mk_dist_gen (fun data => Ok [2]) (fun x ps => Raise TypeError))
  else None.

Definition toy_kstest (data : list Q) (d : string) (ps : list Q)
  : result (pyfloat * pyfloat) :=
  if d =? "norm" then Ok (Fin (3 # 10), Fin (1 # 2))
  else if d =? "expon" then Ok (Fin (1 # 10), Fin (2 # 10))
  else Raise (ForeignError "kstest").

Definition toy_all : list string := ["norm"; "cauchy"; "expon"; "gamma"; "nosuch"].

Definition no_kwargs : kwargs := mk_kwargs None None.


(** A [FixedNullDist] around a [Nonparametric] distribution. *)
Definition fixed_nonparametric (tail : string) (dist : Nonparametric.t)
  : FixedNullDist.t :=
  FixedNullDist.mk (NullDist.mk tail) (Nonparametric.cdf dist).

(** A measure that raises when the first label of the working dataset
    is 0. *)
Definition picky_measure (args : list Dataset.t) : result value :=
  let wdata := last args (Dataset.mk [] None) in
  if (hd 0%Z (Dataset.labels wdata) =? 0)%Z
  then Raise (ForeignError "measure")
  else Ok (Scalar 1).

(** The instances a program can come to hold: built by the constructor,
    then changed by [fit] (whatever its arguments and its outcome) and
    by [clean]. *)
Inductive reachable {D : Type} `{DistClass D} : MCNullDist.t D -> Prop :=
| reach_init (permutations : Z) (tail : string) (self : MCNullDist.t D) :
    MCNullDist.__init__ permutations tail = Ok self -> reachable self
| reach_clean (self : MCNullDist.t D) :
    reachable self -> reachable (MCNullDist.clean self)
| reach_fit (measure : list Dataset.t -> result value) (vdata : option Dataset.t)
            (permutation : Z -> list Z -> list Z) (w : MCNullDist.world D) :
    reachable (MCNullDist.self w) ->
    reachable (MCNullDist.self (snd (MCNullDist.fit measure vdata permutation w))).

(** An entry is accepted in the loop of [matchDistribution]: the [try]
    body for its name ran to its end with the entry's distance and
    parameters, its [p] passed the threshold and its distance is a
    number. *)
Definition accepted_entry (scipy_stats : string -> option dist_gen)
           (kstest : list Q -> string -> list Q -> result (pyfloat * pyfloat))
           (data : list Q) (test : string) (p_thr : Q)
           (locals : option proc_locals) (r : entry) : Prop :=
  exists pv,
    try_body scipy_stats kstest data test p_thr locals (entry_name r)
    = Ok (entry_D r, pv, entry_params r)
    /\ fgt pv p_thr = true
    /\ isnan (entry_D r) = false.

(** [kwargs.get('tail', 'any')]. *)
Definition tail_of (kw : kwargs) : string :=
  match kw_tail kw with
  | Some t => t
  | None => "any"
  end.

(** For each element of the data, whether its p-value under the
    non-parametric distribution of the data itself is within the
    threshold. *)
Definition data_positives (data : list Q) (tail : string) (p_thr : Q) : list bool :=
  map (fun v => Qle_bool (tail_value tail (mean (le_scalar data v))) p_thr) data.

(** A distribution class whose [fit] raises, and a world to run [fit]
    in with it. *)
Definition raising_class : DistClass unit := {|
  dc_params := unit;
  dc_fit := fun _ => Raise (ForeignError "fit");
  dc_new := fun _ => Ok tt;
  dc_cdf := fun _ _ => 0
|}.

Definition raising_world (permutations : Z) : MCNullDist.world unit :=
  MCNullDist.mk_world
    (MCNullDist.mk (NullDist.mk "left") (Some []) permutations None)
    (Dataset.mk [0; 0; 1; 1]%Z None)
    [].

(** A world whose working dataset is already permuted when [fit] is
    called: its labels are [1, 1, 0, 0], its original ones
    [0, 0, 1, 1]. *)
Definition permuted_world (permutations : Z) : MCNullDist.world Nonparametric.t :=
  MCNullDist.mk_world
    (MCNullDist.mk (NullDist.mk "left") (Some []) permutations None)
    (Dataset.mk [1; 1; 0; 0]%Z (Some [0; 0; 1; 1]%Z))
    [].
(* ===================================================================== *)
(** * Properties *)

(** ** The non-parametric distribution *)

Lemma Q_of_nat_succ (n : nat) : Q_of_nat (S n) == 1 + Q_of_nat n.
Proof.
  unfold Q_of_nat. rewrite Nat2Z.inj_succ, <- Z.add_1_l.
  rewrite inject_Z_plus. reflexivity.
Qed.

Lemma sum_indicators (f : Q -> bool) (s : list Q) :
  fold_right Qplus 0 (map Q_of_bool (map f s)) == Q_of_nat (length (filter f s)).
Proof.
  induction s as [|e s IH]; simpl.
  - reflexivity.
  - destruct (f e); simpl.
    + rewrite Q_of_nat_succ, IH. reflexivity.
    + rewrite IH. ring.
Qed.

Lemma mean_le_scalar (s : list Q) (x : Q) :
  mean (le_scalar s x) == empirical_cdf s x.
Proof.
  unfold mean, le_scalar, empirical_cdf, count_le.
  rewrite sum_indicators, length_map. reflexivity.
Qed.

Lemma vectorize_nonempty (f : Q -> Q) (a : list Q) :
  a <> [] -> vectorize f (Arr a) = Ok (Arr (map f a)).
Proof.
  destruct a; [congruence | reflexivity].
Qed.

(** C2.  For stored samples [s] with at least one element,
    [Nonparametric(s).cdf(x)] at a scalar [x] is the number of samples
    [<= x] divided by the number of samples; on an array the same holds
    for each element: wherever [x] has an element [v], the result is an
    array of the same length holding the empirical probability of [v] at
    that position.  (An array without elements has nothing to apply to,
    and [N.vectorize] refuses it; without samples the mean is [nan],
    which the rationals do not have.) *)
Theorem Nonparametric_cdf_is_empirical (s : ndarray) :
  data s <> [] ->
  (forall x : Q,
      exists q, Nonparametric.cdf (Nonparametric.__init__ s) (Scalar x) = Ok (Scalar q)
                /\ q == empirical_cdf (data s) x)
  /\
  (forall (a : list Q) (i : nat) (v : Q),
      nth_error a i = Some v ->
      exists r q, Nonparametric.cdf (Nonparametric.__init__ s) (Arr a) = Ok (Arr r)
                  /\ length r = length a
                  /\ nth_error r i = Some q
                  /\ q == empirical_cdf (data s) v).
Proof.
  intros _. split.
  - intros x. eexists. split; [reflexivity|]. apply mean_le_scalar.
  - intros a i v Hi.
    assert (Ha : a <> []) by (destruct a; [destruct i; discriminate | congruence]).
    unfold Nonparametric.cdf. rewrite (vectorize_nonempty _ a Ha).
    eexists. eexists. split; [reflexivity|]. split; [apply length_map|].
    split.
    + rewrite nth_error_map, Hi. reflexivity.
    + apply mean_le_scalar.
Qed.

Lemma Nonparametric_cdf_is_empirical_witness :
  (exists q, Nonparametric.cdf
               (Nonparametric.__init__ (mk_ndarray [3%nat] [1; 2; 3])) (Scalar 2)
             = Ok (Scalar q)
             /\ q == empirical_cdf [1; 2; 3] 2).
Proof.
  apply (proj1 (Nonparametric_cdf_is_empirical (mk_ndarray [3%nat] [1; 2; 3])
                  ltac:(discriminate)) 2).
Defined.

Example Nonparametric_cdf_run :
  exists r,
    Nonparametric.cdf (Nonparametric.__init__ (mk_ndarray [4%nat] [1; 2; 3; 4]))
                      (Arr [0; 2; 5])
    = Ok (Arr r)
    /\ Forall2 Qeq r [0; 1 # 2; 1].
Proof.
  eexists. split; [vm_compute; reflexivity|]. repeat constructor.
Qed.

Example Nonparametric_cdf_empty_array :
  Nonparametric.cdf (Nonparametric.mk [1; 2; 3; 4]) (Arr []) = Raise ValueError.
Proof. reflexivity. Qed.

(** [dist.cdf(v)] as [MCNullDist.cdf] uses it on an element. *)
Lemma Nonparametric_class_cdf (self : Nonparametric.t) (v : Q) :
  Nonparametric.cdf self (Scalar v) = Ok (Scalar (dc_cdf self v)).
Proof. reflexivity. Qed.

(* ===================================================================== *)
(** ** The p-value translator *)

Lemma setitem_getitem_mask (f : Q -> Q) (h : Q) (c : list Q) :
  setitem_mask c (ge_mask c h) (map f (getitem_mask c (ge_mask c h)))
  = map (fun v => if Qle_bool h v then f v else v) c.
Proof.
  induction c as [|v c IH]; simpl; [reflexivity|].
  destruct (Qle_bool h v); simpl; rewrite IH; reflexivity.
Qed.

(** What [_pvalue] returns when [cdf_func] answers with one value per
    element: the shape of [x] and, element by element, [tail_value]. *)
Lemma _pvalue_elementwise (x : value) (cdf_func : value -> result value)
      (tail : string) (c : list Q) :
  cdf_func (list1 x) = Ok (Arr c) ->
  length c = size x ->
  exists r, _pvalue x cdf_func tail = Ok r
            /\ isscalar r = isscalar x
            /\ flat r = map (tail_value tail) c.
Proof.
  intros Hc Hlen.
  assert (Hmid :
    (if tail =? "left" then Ok (Arr c)
     else if tail =? "right" then Ok (rsub 1 (Arr c))
     else if tail =? "any" then
       Ok (Arr (setitem_mask c (ge_mask c (1 # 2))
                  (map (fun v => 1 - v) (getitem_mask c (ge_mask c (1 # 2))))))
     else Ok (Arr c))
    = Ok (Arr (map (tail_value tail) c))).
  { unfold tail_value.
    destruct (tail =? "left").
    - rewrite map_id. reflexivity.
    - destruct (tail =? "right"); [reflexivity|].
      destruct (tail =? "any").
      + rewrite setitem_getitem_mask. reflexivity.
      + rewrite map_id. reflexivity. }
  destruct x as [v | a]; unfold _pvalue; simpl in *; rewrite Hc; simpl;
    rewrite Hmid; simpl.
  - destruct c as [|c0 [|c1 c]]; try discriminate. simpl.
    eexists. repeat split; reflexivity.
  - eexists. repeat split; reflexivity.
Qed.

Lemma any_tail_is_min (c : Q) :
  (if Qle_bool (1 # 2) c then 1 - c else c) == Qmin c (1 - c).
Proof.
  destruct (Qle_bool (1 # 2) c) eqn:E.
  - apply Qle_bool_iff in E. rewrite Q.min_r; [reflexivity|].
    lra.
  - assert (Hlt : c < 1 # 2).
    { apply Qnot_le_lt. intros Hle. apply Qle_bool_iff in Hle. congruence. }
    rewrite Q.min_l; [reflexivity|].
    lra.
Qed.

Lemma Forall2_Qeq_map (f g : Q -> Q) (c : list Q) :
  (forall v, f v == g v) -> Forall2 Qeq (map f c) (map g c).
Proof.
  intros Hfg. induction c; simpl; constructor; auto.
Qed.

(** C1.  Whenever the [cdf] of the instance answers [c] for [x] (one
    value per element; for a scalar [x] it is asked about [[x]]), [p]
    returns a value of the shape of [x] holding [c] itself when the
    instance was built with [tail='left'], [1 - c] with [tail='right'],
    and the smaller of [c] and [1 - c] with [tail='any'], element by
    element.  No bound on the cdf values is needed. *)
Theorem p_reports_chosen_tail {T : Type} `{NullDistMethods T}
        (self : T) (x : value) (c : list Q) :
  cdf self (list1 x) = Ok (Arr c) ->
  length c = size x ->
  exists r, p self x = Ok r
            /\ isscalar r = isscalar x
            /\ (_tail self = "left" -> flat r = c)
            /\ (_tail self = "right" -> flat r = map (fun v => 1 - v) c)
            /\ (_tail self = "any" ->
                Forall2 Qeq (flat r) (map (fun v => Qmin v (1 - v)) c)).
Proof.
  intros Hc Hlen.
  destruct (_pvalue_elementwise x (cdf self) (_tail self) c Hc Hlen)
    as (r & Hr & Hshape & Hflat).
  exists r. split; [exact Hr|]. split; [exact Hshape|].
  rewrite Hflat. repeat split; intros Ht; rewrite Ht; unfold tail_value; simpl.
  - apply map_id.
  - reflexivity.
  - apply Forall2_Qeq_map. intros v. apply any_tail_is_min.
Qed.

Lemma p_reports_chosen_tail_witness :
  exists r, p (sample_fixed "any") (Arr [2; 3]) = Ok r
            /\ isscalar r = false
            /\ (_tail (sample_fixed "any") = "left" -> flat r = [2 / 4; 3 / 4])
            /\ (_tail (sample_fixed "any") = "right" ->
                flat r = map (fun v => 1 - v) [2 / 4; 3 / 4])
            /\ (_tail (sample_fixed "any") = "any" ->
                Forall2 Qeq (flat r) (map (fun v => Qmin v (1 - v)) [2 / 4; 3 / 4])).
Proof.
  apply (p_reports_chosen_tail (sample_fixed "any") (Arr [2; 3]) [2 / 4; 3 / 4]).
  - vm_compute. reflexivity.
  - reflexivity.
Defined.

Lemma size_flat (x : value) : size x = length (flat x).
Proof. destruct x; reflexivity. Qed.

Lemma flat_list1 (x : value) : flat (list1 x) = flat x.
Proof. destruct x; reflexivity. Qed.

Lemma nth_error_combine {A B} (l1 : list A) (l2 : list B) (i : nat) (a : A) (b : B) :
  nth_error l1 i = Some a -> nth_error l2 i = Some b ->
  nth_error (combine l1 l2) i = Some (a, b).
Proof.
  revert l2 i. induction l1 as [|a1 l1 IH]; intros [|b1 l2] [|i]; simpl;
    try discriminate.
  - intros [= ->] [= ->]. reflexivity.
  - apply IH.
Qed.

(** ** Queries on [MCNullDist] *)

Section MCNullDistQueries.

Context {D : Type} `{DistClass D}.

(** With as many elements as distributions, [cdf] answers with one
    value per element, each from the distribution of its position. *)
Lemma MCNullDist_cdf_matching (self : MCNullDist.t D) (dists : list D) (x : value) :
  MCNullDist._dist self = Some dists ->
  length dists = size x ->
  MCNullDist.cdf self x
  = Ok (Arr (map (fun vd => dc_cdf (snd vd) (fst vd)) (combine (flat x) dists))).
Proof.
  intros Hd Hlen. unfold MCNullDist.cdf. rewrite Hd.
  assert (Hx : flat (if isscalar x then list1 x else x) = flat x)
    by (destruct x; reflexivity).
  rewrite Hx, <- size_flat, Hlen, Nat.eqb_refl. reflexivity.
Qed.

Lemma MCNullDist_cdf_mismatch (self : MCNullDist.t D) (dists : list D) (x : value) :
  MCNullDist._dist self = Some dists ->
  length dists <> size x ->
  MCNullDist.cdf self x = Raise ValueError.
Proof.
  intros Hd Hlen. unfold MCNullDist.cdf. rewrite Hd.
  assert (Hx : flat (if isscalar x then list1 x else x) = flat x)
    by (destruct x; reflexivity).
  rewrite Hx, <- size_flat.
  destruct (Nat.eqb_spec (length dists) (size x)); [contradiction | reflexivity].
Qed.

Lemma cdfs_nth (dists : list D) (xs : list Q) (i : nat) (v : Q) (d : D) :
  nth_error xs i = Some v ->
  nth_error dists i = Some d ->
  nth_error (map (fun vd => dc_cdf (snd vd) (fst vd)) (combine xs dists)) i
  = Some (dc_cdf d v).
Proof.
  intros Hv Hd. rewrite nth_error_map, (nth_error_combine _ _ _ _ _ Hv Hd).
  reflexivity.
Qed.

End MCNullDistQueries.

Lemma _pvalue_asks_cdf (x : value) (cdf_func : value -> result value)
      (tail : string) (r : value) :
  _pvalue x cdf_func tail = Ok r -> exists c, cdf_func (list1 x) = Ok c.
Proof.
  unfold _pvalue. destruct x as [v | a]; simpl;
    (destruct (cdf_func _) as [c | e]; [eexists; reflexivity | discriminate]).
Qed.

Lemma MCNullDist_cdf_returns {D : Type} `{DistClass D}
      (self : MCNullDist.t D) (x c : value) :
  MCNullDist.cdf self x = Ok c ->
  exists dists, MCNullDist._dist self = Some dists /\ length dists = size x.
Proof.
  unfold MCNullDist.cdf. destruct (MCNullDist._dist self) as [dists|]; [|discriminate].
  assert (Hx : flat (if isscalar x then list1 x else x) = flat x)
    by (destruct x; reflexivity).
  rewrite Hx, <- size_flat.
  destruct (Nat.eqb_spec (length dists) (size x)); [|discriminate].
  intros _. exists dists. split; [reflexivity | assumption].
Qed.

(** [p] on an [MCNullDist] holding as many distributions as [x] has
    elements. *)
Lemma MCNullDist_p_matching {D : Type} `{DistClass D}
      (self : MCNullDist.t D) (dists : list D) (x : value) :
  MCNullDist._dist self = Some dists ->
  length dists = size x ->
  exists r, p self x = Ok r
            /\ isscalar r = isscalar x
            /\ size r = size x
            /\ forall i v d,
                nth_error (flat x) i = Some v ->
                nth_error dists i = Some d ->
                nth_error (flat r) i
                = Some (tail_value (_tail self) (dc_cdf d v)).
Proof.
  intros Hd Hlen.
  assert (Hc := MCNullDist_cdf_matching self dists (list1 x) Hd).
  rewrite flat_list1 in Hc.
  assert (Hsz : size (list1 x) = size x) by (destruct x; reflexivity).
  rewrite Hsz in Hc. specialize (Hc Hlen).
  change (MCNullDist.cdf self (list1 x)) with (cdf self (list1 x)) in Hc.
  destruct (_pvalue_elementwise x (cdf self) (_tail self) _ Hc)
    as (r & Hr & Hshape & Hflat).
  { rewrite length_map, length_combine, <- size_flat, Hlen. apply Nat.min_id. }
  exists r. split; [exact Hr|]. split; [exact Hshape|]. split.
  - rewrite (size_flat r), Hflat, !length_map, length_combine, <- size_flat, Hlen.
    apply Nat.min_id.
  - intros i v d Hv Hdi. rewrite Hflat, nth_error_map.
    rewrite (cdfs_nth dists (flat x) i v d Hv Hdi). reflexivity.
Qed.



Example p_scalar_and_array :
  (exists q, p (sample_fixed "right") (Scalar 2) = Ok (Scalar q) /\ q == 1 # 2)
  /\ p (sample_mc "left") (Scalar 2) = Raise ValueError
  /\ p (NullDist.mk "left") (Scalar 2) = Raise NotImplementedError.
Proof.
  split; [eexists; split; [vm_compute; reflexivity | reflexivity]|].
  split; reflexivity.
Qed.

(** C4.  An [MCNullDist] as its constructor leaves it holds no
    distribution, so [cdf] on a scalar or on an array with at least one
    element raises [ValueError]. *)
Theorem unfit_cdf_raises_ValueError {D : Type} `{DistClass D}
        (permutations : Z) (tail : string) (self : MCNullDist.t D) (x : value) :
  MCNullDist.__init__ permutations tail = Ok self ->
  (1 <= size x)%nat ->
  MCNullDist.cdf self x = Raise ValueError.
Proof.
  intros Hinit Hx.
  apply (MCNullDist_cdf_mismatch self []).
  - unfold MCNullDist.__init__ in Hinit.
    destruct (NullDist.__init__ tail); simpl in Hinit; [|discriminate].
    injection Hinit as <-. reflexivity.
  - simpl. lia.
Qed.

Lemma unfit_cdf_raises_ValueError_witness :
  MCNullDist.cdf (MCNullDist.mk (D := Nonparametric.t) (NullDist.mk "left") (Some []) 100 None)
                 (Scalar (1 # 2))
  = Raise ValueError.
Proof.
  apply (unfit_cdf_raises_ValueError 100 "left").
  - reflexivity.
  - simpl. lia.
Defined.

(** C5.  With [k] fitted distributions in place, [cdf(x)] raises
    [ValueError] exactly when the number of elements of [x] (one for a
    scalar) is not [k]; when it is [k] the result is an array of [k]
    values, the one at each position being the cdf of the distribution
    at that position at the element of [x] there. *)
Theorem cdf_length_check {D : Type} `{DistClass D}
        (self : MCNullDist.t D) (dists : list D) (x : value) :
  MCNullDist._dist self = Some dists ->
  (MCNullDist.cdf self x = Raise ValueError <-> size x <> length dists)
  /\ (size x = length dists ->
      exists r, MCNullDist.cdf self x = Ok (Arr r)
                /\ length r = length dists
                /\ forall i v d,
                    nth_error (flat x) i = Some v ->
                    nth_error dists i = Some d ->
                    nth_error r i = Some (dc_cdf d v)).
Proof.
  intros Hd. split; [split|].
  - intros Hraise Heq.
    rewrite (MCNullDist_cdf_matching self dists x Hd (eq_sym Heq)) in Hraise.
    discriminate.
  - intros Hne. apply (MCNullDist_cdf_mismatch self dists x Hd). congruence.
  - intros Heq. eexists. split.
    + apply (MCNullDist_cdf_matching self dists x Hd (eq_sym Heq)).
    + split.
      * rewrite length_map, length_combine, <- size_flat, Heq. apply Nat.min_id.
      * intros i v d. apply cdfs_nth.
Qed.

(** ** Construction *)

Lemma tail_check_spec (tail : string) :
  existsb (String.eqb tail) ["left"; "right"; "any"] = true <-> In tail known_tails.
Proof.
  rewrite existsb_exists. unfold known_tails. split.
  - intros (s & Hin & Heq). apply String.eqb_eq in Heq. subst s. exact Hin.
  - intros Hin. exists tail. split; [exact Hin | apply String.eqb_refl].
Qed.

Lemma NullDist_init_known (tail : string) :
  In tail known_tails -> NullDist.__init__ tail = Ok (NullDist.mk tail).
Proof.
  intros Hin. unfold NullDist.__init__.
  apply tail_check_spec in Hin. rewrite Hin. reflexivity.
Qed.

Lemma NullDist_init_unknown (tail : string) :
  ~ In tail known_tails -> NullDist.__init__ tail = Raise ValueError.
Proof.
  intros Hnin. unfold NullDist.__init__.
  destruct (existsb (String.eqb tail) ["left"; "right"; "any"]) eqn:E.
  - apply tail_check_spec in E. contradiction.
  - reflexivity.
Qed.

Lemma known_tails_dec (tail : string) : {In tail known_tails} + {~ In tail known_tails}.
Proof. apply in_dec, string_dec. Qed.

(** C6.  The constructors of [NullDist], [MCNullDist] and
    [FixedNullDist] raise [ValueError] exactly for a [tail] that is none
    of ['left'], ['right'], ['any'], and return an instance storing the
    tail exactly for these three. *)
Theorem unknown_tail_raises_ValueError (tail : string) :
  ((NullDist.__init__ tail = Raise ValueError <-> ~ In tail known_tails)
   /\ (NullDist.__init__ tail = Ok (NullDist.mk tail) <-> In tail known_tails))
  /\
  (forall (D : Type) (HD : DistClass D) (permutations : Z),
      (MCNullDist.__init__ (D := D) permutations tail = Raise ValueError
       <-> ~ In tail known_tails)
      /\ (MCNullDist.__init__ (D := D) permutations tail
          = Ok (MCNullDist.mk (NullDist.mk tail) (Some []) permutations None)
          <-> In tail known_tails))
  /\
  (forall dist : value -> result value,
      (FixedNullDist.__init__ dist tail = Raise ValueError <-> ~ In tail known_tails)
      /\ (FixedNullDist.__init__ dist tail
          = Ok (FixedNullDist.mk (NullDist.mk tail) dist)
          <-> In tail known_tails)).
Proof.
  destruct (known_tails_dec tail) as [Hin | Hnin].
  - assert (Hb := NullDist_init_known tail Hin).
    repeat split; intros;
      unfold MCNullDist.__init__, FixedNullDist.__init__ in *;
      try rewrite Hb in *; simpl in *;
      try discriminate; try contradiction; try reflexivity; try assumption.
  - assert (Hb := NullDist_init_unknown tail Hnin).
    repeat split; intros;
      unfold MCNullDist.__init__, FixedNullDist.__init__ in *;
      try rewrite Hb in *; simpl in *;
      try discriminate; try contradiction; try reflexivity; try assumption.
Qed.

Example tails_accepted :
  map NullDist.__init__ ["left"; "right"; "any"; "both"; "Left"; ""]
  = [Ok (NullDist.mk "left"); Ok (NullDist.mk "right"); Ok (NullDist.mk "any");
     Raise ValueError; Raise ValueError; Raise ValueError].
Proof. reflexivity. Qed.

(* ===================================================================== *)
(** ** Fitting by permutation *)

Lemma permuteLabels_original (status : bool) (perm : list Z -> list Z) (ds : Dataset.t) :
  original (Dataset.permuteLabels status perm ds) = original ds.
Proof.
  unfold original, Dataset.permuteLabels.
  destruct ds as [l [o|]], status; reflexivity.
Qed.

Lemma permuteLabels_restore (perm : list Z -> list Z) (ds : Dataset.t) :
  Dataset.labels (Dataset.permuteLabels false perm ds) = original ds
  /\ Dataset.origlabels (Dataset.permuteLabels false perm ds) = None.
Proof.
  unfold original, Dataset.permuteLabels.
  destruct ds as [l [o|]]; simpl; auto.
Qed.

Lemma xrange_length (n : Z) : length (xrange n) = Z.to_nat n.
Proof. unfold xrange. rewrite length_map, length_seq. reflexivity. Qed.

#[local] Arguments Dataset.permuteLabels : simpl never.
#[local] Arguments original : simpl never.

Section Fit.

Context {D : Type} `{DistClass D}.

Variable measure : list Dataset.t -> result value.
Variable vdata : option Dataset.t.
Variable permutation : Z -> list Z -> list Z.

#[local] Abbreviation world := (MCNullDist.world D).
#[local] Abbreviation cycle := (MCNullDist.cycle (D := D) measure vdata permutation).

(** One cycle: the labels are permuted, the measure is called on the
    permuted dataset, and its value is appended. *)
Lemma cycle_run (q : Z) (acc : list value) (w : world) :
  cycle q acc w
  = let wd := Dataset.permuteLabels true (permutation q) (MCNullDist.wdata w) in
    let w' := MCNullDist.mk_world (MCNullDist.self w) wd
                (MCNullDist.calls w ++ [PermuteLabels true; Measure]) in
    match measure (MCNullDist.measure_args vdata wd) with
    | Ok m => (Ok (acc ++ [m]), w')
    | Raise e => (Raise e, w')
    end.
Proof.
  unfold MCNullDist.cycle, mbind, MCNullDist.call_permuteLabels,
    MCNullDist.call_measure, modify, mret. simpl.
  rewrite <- app_assoc. simpl.
  destruct (measure _); reflexivity.
Qed.

(** Whatever the loop does, it does not touch the instance, keeps the
    labels to restore, and only appends to the log. *)
Lemma loop_frame (ps : list Z) :
  forall (acc : list value) (w : world),
    let w' := snd (for_each ps cycle acc w) in
    MCNullDist.self w' = MCNullDist.self w
    /\ original (MCNullDist.wdata w') = original (MCNullDist.wdata w)
    /\ exists evs, MCNullDist.calls w' = MCNullDist.calls w ++ evs.
Proof.
  induction ps as [|q ps IH]; intros acc w; simpl.
  - repeat split. exists []. symmetry. apply app_nil_r.
  - unfold mbind. rewrite cycle_run. simpl.
    destruct (measure _) as [m | e]; simpl.
    + match goal with
      | |- context [for_each ps _ ?a ?s] => destruct (IH a s) as (Hs & Ho & evs & Hc)
      end.
      rewrite Hs, Ho, Hc. simpl. rewrite permuteLabels_original.
      repeat split. eexists. rewrite <- !app_assoc. reflexivity.
    + rewrite permuteLabels_original. repeat split.
      eexists. reflexivity.
Qed.

(** With a measure that answers in every cycle the loop runs every
    cycle: one permutation and one measurement each, the measurements
    collected in order. *)
Lemma loop_complete (good : value -> Prop) :
  (forall args, exists v, measure args = Ok v /\ good v) ->
  forall (ps : list Z) (acc : list value) (w : world),
  exists ms w',
    for_each ps cycle acc w = (Ok (acc ++ ms), w')
    /\ MCNullDist.self w' = MCNullDist.self w
    /\ original (MCNullDist.wdata w') = original (MCNullDist.wdata w)
    /\ MCNullDist.calls w' = MCNullDist.calls w ++ cycles (length ps)
    /\ length ms = length ps
    /\ Forall good ms
    /\ Forall2 (fun ds m => measure (MCNullDist.measure_args vdata ds) = Ok m)
               (permuted permutation (MCNullDist.wdata w) ps) ms.
Proof.
  intros Hm. induction ps as [|q ps IH]; intros acc w; simpl.
  - exists [], w. rewrite !app_nil_r. repeat split; constructor.
  - unfold mbind. rewrite cycle_run. simpl.
    destruct (Hm (MCNullDist.measure_args vdata
                    (Dataset.permuteLabels true (permutation q) (MCNullDist.wdata w))))
      as (m & Hmeas & Hgood).
    rewrite Hmeas.
    match goal with
    | |- context [for_each ps _ ?a ?s] =>
        destruct (IH a s) as (ms & w' & Hrun & Hs & Ho & Hc & Hl & Hg & Hf)
    end.
    exists (m :: ms), w'. simpl in *.
    rewrite Hrun, <- app_assoc. simpl.
    repeat split; try assumption.
    + rewrite Ho. apply permuteLabels_original.
    + rewrite Hc, <- !app_assoc. reflexivity.
    + congruence.
    + constructor; assumption.
    + constructor; assumption.
Qed.

(** [fit] step by step: the loop, the restoring call, the array of
    samples stored in the state variable, the reshape, and one
    distribution per column. *)
Lemma fit_run (w : world) :
  MCNullDist.fit measure vdata permutation w
  = match for_each (xrange (MCNullDist.__permutations (MCNullDist.self w)))
                   cycle [] w with
    | (Raise e, w1) => (Raise e, w1)
    | (Ok ms, w1) =>
        let w2 := MCNullDist.mk_world
                    (MCNullDist.self w1)
                    (Dataset.permuteLabels false (fun l => l) (MCNullDist.wdata w1))
                    (MCNullDist.calls w1 ++ [PermuteLabels false]) in
        match asarray ms with
        | Raise e => (Raise e, w2)
        | Ok arr =>
            let self3 := MCNullDist.mk (MCNullDist.base (MCNullDist.self w1))
                           (MCNullDist._dist (MCNullDist.self w1))
                           (MCNullDist.__permutations (MCNullDist.self w1))
                           (Some arr) in
            let w3 := MCNullDist.mk_world self3 (MCNullDist.wdata w2)
                        (MCNullDist.calls w2) in
            match reshape (if Nat.eqb (length (shape arr)) 1
                           then newaxis1 arr else arr)
                          [Some (hd 0%nat (shape arr)); None] with
            | Raise e => (Raise e, w3)
            | Ok rs =>
                match map_result MCNullDist.fit_element (columns rs) with
                | Raise e => (Raise e, w3)
                | Ok dist =>
                    (Ok tt,
                     MCNullDist.mk_world
                       (MCNullDist.mk (MCNullDist.base self3) (Some dist)
                          (MCNullDist.__permutations self3)
                          (MCNullDist.dist_samples self3))
                       (MCNullDist.wdata w3) (MCNullDist.calls w3))
                end
            end
        end
    end.
Proof.
  unfold MCNullDist.fit, mbind, gets, lift, modify,
    MCNullDist.call_permuteLabels, MCNullDist.set_dist_samples,
    MCNullDist.set_dist.
  destruct (for_each _ _ _ w) as [[ms | e] w1]; [|reflexivity].
  destruct (asarray ms) as [arr | e]; [|reflexivity].
  cbv zeta. cbn [MCNullDist.self MCNullDist.wdata MCNullDist.calls].
  destruct (reshape _ _) as [rs | e]; [|reflexivity].
  destruct (map_result _ _) as [dist | e]; reflexivity.
Qed.

End Fit.

Lemma asarray_scalars (ms : list value) :
  ms <> [] ->
  Forall (has_elements 1 true) ms ->
  asarray ms = Ok (mk_ndarray [length ms] (map scalar_of ms)).
Proof.
  intros Hne Hall.
  assert (Hb : forallb isscalar ms = true).
  { apply forallb_forall. intros v Hv.
    rewrite Forall_forall in Hall. apply (Hall v Hv). }
  destruct ms as [|[v | a] ms]; [congruence | |].
  - unfold asarray. rewrite Hb. reflexivity.
  - simpl in Hb. discriminate.
Qed.

Lemma asarray_arrays (k : nat) (ms : list value) :
  ms <> [] ->
  Forall (has_elements k false) ms ->
  asarray ms = Ok (mk_ndarray [length ms; k] (flat_map flat ms)).
Proof.
  intros Hne Hall.
  assert (Hb : forallb (is_array_of k) ms = true).
  { apply forallb_forall. intros v Hv.
    rewrite Forall_forall in Hall. destruct (Hall v Hv) as [Hs Hk].
    destruct v; [discriminate|]. simpl in *. apply Nat.eqb_eq. exact Hk. }
  destruct ms as [|[v | a] ms]; [congruence | |].
  - simpl in Hb. discriminate.
  - assert (Ha : length a = k).
    { inversion Hall as [|? ? [_ Hk] _]. exact Hk. }
    unfold asarray. rewrite Ha, Hb. reflexivity.
Qed.

(** Reshaping an array of [r >= 1] rows to [(r, -1)] keeps the rows and
    flattens each to the elements it has. *)
Lemma reshape_rows (a : ndarray) (r c : nat) :
  ndsize a = (r * c)%nat ->
  r <> 0%nat ->
  reshape a [Some r; None] = Ok (mk_ndarray [r; c] (data a)).
Proof.
  intros Hsize Hr. unfold reshape. simpl. rewrite Hsize, Nat.mul_1_r.
  destruct (Nat.eqb_spec r 0) as [|_]; [contradiction|].
  rewrite (Nat.mul_comm r c), Nat.Div0.mod_mul, Nat.div_mul by exact Hr.
  reflexivity.
Qed.

(** Without rows the unknown dimension cannot be inferred. *)
Lemma reshape_no_rows (a : ndarray) :
  reshape a [Some 0%nat; None] = Raise ValueError.
Proof. reflexivity. Qed.

Lemma columns_length (r c : nat) (d : list Q) :
  length (columns (mk_ndarray [r; c] d)) = c.
Proof. unfold columns. simpl. rewrite length_map, length_seq. reflexivity. Qed.

(** What [fit] leaves behind once the samples form [r >= 1] rows of [c]
    elements. *)
Lemma fit_distributions {D : Type} `{DistClass D} (arr : ndarray) (r c : nat) :
  r <> 0%nat ->
  shape arr = [r] /\ c = 1%nat \/ shape arr = [r; c] ->
  exists cols,
    reshape (if Nat.eqb (length (shape arr)) 1 then newaxis1 arr else arr)
            [Some (hd 0%nat (shape arr)); None]
    = Ok (mk_ndarray [r; c] (data arr))
    /\ columns (mk_ndarray [r; c] (data arr)) = cols
    /\ length cols = c
    /\ Forall (fun samples => shape samples = [r]) cols.
Proof.
  intros Hr Hshape. eexists. split; [|split; [reflexivity|split]].
  - destruct Hshape as [[Hs ->] | Hs]; rewrite Hs; simpl.
    + replace (data arr) with (data (newaxis1 arr))
        by (unfold newaxis1; rewrite Hs; reflexivity).
      apply reshape_rows; [|exact Hr].
      unfold ndsize, newaxis1. rewrite Hs. simpl. lia.
    + apply reshape_rows; [|exact Hr].
      unfold ndsize. rewrite Hs. simpl. lia.
  - apply columns_length.
  - unfold columns. simpl. apply Forall_forall. intros s Hin.
    apply in_map_iff in Hin. destruct Hin as (j & <- & _). reflexivity.
Qed.

Lemma map_result_total {A B} (f : A -> result B) (l : list A) :
  (forall a, exists b, f a = Ok b) ->
  exists bs, map_result f l = Ok bs /\ Forall2 (fun a b => f a = Ok b) l bs.
Proof.
  intros Hf. induction l as [|a l (bs & Hbs & Hall)]; simpl.
  - exists []. split; [reflexivity | constructor].
  - destruct (Hf a) as [b Hb]. rewrite Hb, Hbs.
    exists (b :: bs). split; [reflexivity | constructor; assumption].
Qed.

Lemma fits_every_element {D : Type} `{DistClass D} :
  fits_every D -> forall samples, exists d, MCNullDist.fit_element samples = Ok d.
Proof.
  intros Hfit samples. destruct (Hfit samples) as (params & d & Hp & Hd).
  exists d. unfold MCNullDist.fit_element. rewrite Hp. exact Hd.
Qed.

Lemma Nonparametric_fits_every : fits_every Nonparametric.t.
Proof.
  intros samples. eexists. eexists. split; reflexivity.
Qed.


Lemma label_measure_has_two : measure_has 2 label_measure.
Proof.
  exists false. intros args. eexists. split; [reflexivity|].
  split; reflexivity.
Qed.


Example sample_fit_result :
  fst sample_fit_run = Ok tt
  /\ MCNullDist.dist_samples sample_fitted
     = Some (mk_ndarray [3%nat; 2%nat] [1; 4; 0; 4; 1; 4])
  /\ sample_fitted_dists = [Nonparametric.mk [1; 0; 1]; Nonparametric.mk [4; 4; 4]]
  /\ Dataset.labels (MCNullDist.wdata (snd sample_fit_run)) = [0; 0; 1; 1]%Z.
Proof. vm_compute. repeat split; reflexivity. Qed.


(** C9, for a working dataset handed over unpermuted.  When [fit]
    returns on a working dataset that keeps no original labels aside at
    the call, the dataset has the labels it had before the call and is
    unpermuted again, and the last call made on it is the restoring
    [permuteLabels(False)]. *)
Theorem fit_restores_labels {D : Type} `{DistClass D}
        (measure : list Dataset.t -> result value) (vdata : option Dataset.t)
        (permutation : Z -> list Z -> list Z) (w w' : MCNullDist.world D) :
  Dataset.origlabels (MCNullDist.wdata w) = None ->
  MCNullDist.fit measure vdata permutation w = (Ok tt, w') ->
  Dataset.labels (MCNullDist.wdata w') = Dataset.labels (MCNullDist.wdata w)
  /\ Dataset.origlabels (MCNullDist.wdata w') = None
  /\ exists evs, MCNullDist.calls w' = MCNullDist.calls w ++ evs ++ [PermuteLabels false].
Proof.
  intros Horig Hfit. rewrite fit_run in Hfit.
  destruct (loop_frame measure vdata permutation
              (xrange (MCNullDist.__permutations (MCNullDist.self w))) [] w)
    as (_ & Ho & evs & Hc).
  destruct (for_each _ _ _ w) as [[ms | e] w1]; [|discriminate].
  simpl in Ho, Hc.
  destruct (asarray ms) as [arr | e]; [|discriminate].
  cbv zeta in Hfit. cbn [MCNullDist.self MCNullDist.wdata MCNullDist.calls] in Hfit.
  destruct (reshape _ _) as [rs | e]; [|discriminate].
  destruct (map_result _ _) as [dist | e]; [|discriminate].
  injection Hfit as <-. cbn [MCNullDist.wdata MCNullDist.calls].
  destruct (permuteLabels_restore (fun l => l) (MCNullDist.wdata w1)) as [Hl Hn].
  rewrite Hl, Hn, Ho, Hc. unfold original. rewrite Horig.
  repeat split. exists evs. symmetry. apply app_assoc.
Qed.

(** C9 as stated fails for a working dataset that is already permuted
    when [fit] is called: [fit] returns, and its restoring call brings
    back the original labels [0, 0, 1, 1], not the labels [1, 1, 0, 0]
    that the dataset had before the call. *)
Lemma fit_on_permuted_dataset :
  Dataset.labels (MCNullDist.wdata (permuted_world 3)) = [1; 1; 0; 0]%Z
  /\ fst (MCNullDist.fit label_measure None reverse_labels (permuted_world 3)) = Ok tt
  /\ Dataset.labels
       (MCNullDist.wdata
          (snd (MCNullDist.fit label_measure None reverse_labels (permuted_world 3))))
     = [0; 0; 1; 1]%Z
  /\ Dataset.labels
       (MCNullDist.wdata
          (snd (MCNullDist.fit label_measure None reverse_labels (permuted_world 3))))
     <> Dataset.labels (MCNullDist.wdata (permuted_world 3)).
Proof.
  split; [reflexivity|]. split; [vm_compute; reflexivity|].
  split; [vm_compute; reflexivity|].
  vm_compute. discriminate.
Qed.

Lemma fit_restores_labels_witness :
  Dataset.labels (MCNullDist.wdata (snd sample_fit_run))
  = Dataset.labels (MCNullDist.wdata (sample_world 3))
  /\ Dataset.origlabels (MCNullDist.wdata (snd sample_fit_run)) = None
  /\ exists evs, MCNullDist.calls (snd sample_fit_run)
                 = MCNullDist.calls (sample_world 3) ++ evs ++ [PermuteLabels false].
Proof.
  apply (fit_restores_labels label_measure None reverse_labels).
  - reflexivity.
  - vm_compute. reflexivity.
Defined.

Lemma cdf_length_check_witness :
  (MCNullDist.cdf sample_fitted (Arr [1; 4]) = Raise ValueError
   <-> size (Arr [1; 4]) <> length sample_fitted_dists)
  /\ (size (Arr [1; 4]) = length sample_fitted_dists ->
      exists r, MCNullDist.cdf sample_fitted (Arr [1; 4]) = Ok (Arr r)
                /\ length r = length sample_fitted_dists
                /\ forall i v d,
                    nth_error (flat (Arr [1; 4])) i = Some v ->
                    nth_error sample_fitted_dists i = Some d ->
                    nth_error r i = Some (dc_cdf d v)).
Proof.
  apply (cdf_length_check sample_fitted sample_fitted_dists (Arr [1; 4])).
  vm_compute. reflexivity.
Defined.

Example cdf_after_fit :
  MCNullDist.cdf sample_fitted (Scalar 1) = Raise ValueError
  /\ MCNullDist.cdf sample_fitted (Arr [1; 2; 3]) = Raise ValueError
  /\ exists r, MCNullDist.cdf sample_fitted (Arr [0; 4]) = Ok (Arr r)
               /\ Forall2 Qeq r [1 # 3; 1].
Proof.
  split; [reflexivity|]. split; [reflexivity|].
  eexists. split; [vm_compute; reflexivity|].
  repeat constructor.
Qed.

(* ===================================================================== *)
(** ** The distribution search *)

(** *** Sorting the results *)

Lemma Qlt_bool_lt (x y : Q) : Qlt_bool x y = true -> x < y.
Proof.
  unfold Qlt_bool. intros Hb. apply negb_true_iff in Hb.
  apply Qnot_le_lt. intros Hle. apply Qle_bool_iff in Hle. congruence.
Qed.

Lemma Qlt_bool_ge (x y : Q) : Qlt_bool x y = false -> y <= x.
Proof.
  unfold Qlt_bool. intros Hb. apply negb_false_iff in Hb.
  apply Qle_bool_iff. exact Hb.
Qed.

Lemma entry_lt_D_le (a b : entry) :
  finite_D a -> finite_D b -> entry_lt a b = true -> D_le a b.
Proof.
  unfold finite_D, entry_lt, D_le.
  destruct (entry_D a) as [|x], (entry_D b) as [|y]; simpl; try discriminate.
  intros _ _. destruct (Qeq_bool x y) eqn:E; simpl.
  - intros _. apply Qeq_bool_iff in E. rewrite E. apply Qle_refl.
  - intros Hlt. apply Qlt_le_weak, Qlt_bool_lt, Hlt.
Qed.

Lemma entry_nlt_D_le (a b : entry) :
  finite_D a -> finite_D b -> entry_lt a b = false -> D_le b a.
Proof.
  unfold finite_D, entry_lt, D_le.
  destruct (entry_D a) as [|x], (entry_D b) as [|y]; simpl; try discriminate.
  intros _ _. destruct (Qeq_bool x y) eqn:E; simpl.
  - intros _. apply Qeq_bool_iff in E. rewrite E. apply Qle_refl.
  - apply Qlt_bool_ge.
Qed.

Lemma D_le_trans (a b c : entry) : D_le a b -> D_le b c -> D_le a c.
Proof.
  unfold D_le.
  destruct (entry_D a), (entry_D b), (entry_D c); try contradiction.
  apply Qle_trans.
Qed.

Lemma insert_Permutation (x : entry) (l : list entry) :
  Permutation (insert x l) (x :: l).
Proof.
  induction l as [|y l IH]; simpl.
  - reflexivity.
  - destruct (entry_lt x y); [reflexivity|].
    rewrite IH. apply perm_swap.
Qed.

Lemma sort_from_Permutation (l acc : list entry) :
  Permutation (fold_left (fun sorted x => insert x sorted) l acc) (acc ++ l).
Proof.
  revert acc. induction l as [|x l IH]; intros acc; simpl.
  - rewrite app_nil_r. reflexivity.
  - rewrite IH, insert_Permutation. apply Permutation_middle.
Qed.

Lemma sort_Permutation (l : list entry) : Permutation (sort l) l.
Proof. apply (sort_from_Permutation l []). Qed.

Lemma insert_sorted (x : entry) (l : list entry) :
  finite_D x -> Forall finite_D l ->
  StronglySorted D_le l -> StronglySorted D_le (insert x l).
Proof.
  intros Hx Hfin Hs. induction Hs as [|y l Hs IH Hy]; simpl.
  - constructor; constructor.
  - inversion Hfin as [|? ? Hfy Hfl]; subst.
    destruct (entry_lt x y) eqn:E.
    + assert (Hxy := entry_lt_D_le x y Hx Hfy E).
      constructor; [constructor; assumption|].
      constructor; [exact Hxy|].
      eapply Forall_impl; [|exact Hy]. intros z. apply D_le_trans, Hxy.
    + constructor; [apply IH, Hfl|].
      rewrite (insert_Permutation x l).
      constructor; [apply entry_nlt_D_le; assumption | exact Hy].
Qed.

Lemma sort_from_sorted (l acc : list entry) :
  Forall finite_D l -> Forall finite_D acc -> StronglySorted D_le acc ->
  StronglySorted D_le (fold_left (fun sorted x => insert x sorted) l acc).
Proof.
  revert acc. induction l as [|x l IH]; intros acc Hl Hacc Hs; simpl.
  - exact Hs.
  - inversion Hl as [|? ? Hx Hl']; subst. apply IH.
    + exact Hl'.
    + rewrite (insert_Permutation x acc). constructor; assumption.
    + apply insert_sorted; assumption.
Qed.

Lemma sort_sorted (l : list entry) :
  Forall finite_D l -> StronglySorted D_le (sort l).
Proof.
  intros Hl. apply sort_from_sorted; [exact Hl | constructor | constructor].
Qed.

(** *** The loop over the candidates *)

Section Search.

Variable scipy_stats : string -> option dist_gen.
Variable kstest : list Q -> string -> list Q -> result (pyfloat * pyfloat).
Variable all_distributions : list string.

Variable data : list Q.
Variable test : string.
Variable p_thr : Q.
Variable locals : option proc_locals.

#[local] Abbreviation body := (try_body scipy_stats kstest data test p_thr locals).
#[local] Abbreviation step := (loop_body scipy_stats kstest data test p_thr locals).

Lemma step_raise (results : list entry) (d : string) (e : exn) :
  body d = Raise e -> step results d = results.
Proof. unfold loop_body. intros ->. reflexivity. Qed.

Lemma step_finite (results : list entry) (d : string) :
  Forall finite_D results -> Forall finite_D (step results d).
Proof.
  intros Hfin. unfold loop_body.
  destruct (body d) as [[[Dv pv] ps] | e]; [|exact Hfin].
  destruct (fgt pv p_thr && negb (isnan Dv)) eqn:E; [|exact Hfin].
  apply Forall_app. split; [exact Hfin|].
  constructor; [|constructor].
  apply andb_true_iff in E. destruct E as [_ E].
  apply negb_true_iff in E. exact E.
Qed.

Lemma loop_finite (ds : list string) (results : list entry) :
  Forall finite_D results -> Forall finite_D (fold_left step ds results).
Proof.
  revert results. induction ds as [|d ds IH]; intros results Hfin; simpl.
  - exact Hfin.
  - apply IH, step_finite, Hfin.
Qed.

(** Every entry the loop adds carries the name of a candidate whose
    [try] body ran to its end. *)
Lemma loop_entries (ds : list string) (results : list entry) (r : entry) :
  In r (fold_left step ds results) ->
  In r results \/ exists out, body (entry_name r) = Ok out.
Proof.
  revert results. induction ds as [|d ds IH]; intros results Hin; simpl in Hin.
  - left. exact Hin.
  - destruct (IH _ Hin) as [Hstep | Hout]; [|right; exact Hout].
    unfold loop_body in Hstep.
    destruct (body d) as [[[Dv pv] ps] | e] eqn:E; [|left; exact Hstep].
    destruct (fgt pv p_thr && negb (isnan Dv)); [|left; exact Hstep].
    apply in_app_or in Hstep. destruct Hstep as [Hold | [<- | []]].
    + left. exact Hold.
    + right. unfold entry_name. simpl. eexists. exact E.
Qed.

(** A candidate whose [try] body raises leaves the loop as if it had
    not been listed. *)
Lemma loop_skips (pre post : list string) (d : string) (e : exn)
      (results : list entry) :
  body d = Raise e ->
  fold_left step (pre ++ d :: post) results = fold_left step (pre ++ post) results.
Proof.
  intros Hraise. rewrite !fold_left_app. simpl.
  rewrite (step_raise _ d e Hraise). reflexivity.
Qed.

End Search.

Section MatchDistributionProperties.

Variable scipy_stats : string -> option dist_gen.
Variable kstest : list Q -> string -> list Q -> result (pyfloat * pyfloat).
Variable all_distributions : list string.

#[local] Abbreviation search := (matchDistribution scipy_stats kstest all_distributions).

(** The result of a search that returns: the sorted entries of the
    loop. *)
Lemma search_returns (data : list Q) (test : string)
      (distributions : option (list string)) (kw : kwargs) (res : list entry) :
  search data test distributions kw = Ok res ->
  exists locals,
    preamble data test (p_threshold kw) kw = Ok locals
    /\ res = sort (fold_left
                     (loop_body scipy_stats kstest data test (p_threshold kw) locals)
                     (match distributions with
                      | None => all_distributions
                      | Some l => l
                      end) []).
Proof.
  unfold matchDistribution.
  destruct (negb (existsb (String.eqb test) ["p-roc"; "kstest"])); [discriminate|].
  destruct (preamble data test (p_threshold kw) kw) as [locals | e]; simpl;
    [|discriminate].
  intros [= <-]. exists locals. split; reflexivity.
Qed.

(** C8.  Whenever [matchDistribution] returns, every entry of the
    returned list has a distance that is a number, the list is in
    ascending order of the distance [D], and so its first entry has
    the smallest distance; with [test='kstest'] it does return. *)
Theorem matchDistribution_sorted (data : list Q) (test : string)
        (distributions : option (list string)) (kw : kwargs) :
  (test = "kstest" -> exists res, search data test distributions kw = Ok res)
  /\ (forall res,
         search data test distributions kw = Ok res ->
         Forall finite_D res
         /\ StronglySorted D_le res
         /\ forall best rest, res = best :: rest -> Forall (D_le best) rest).
Proof.
  split.
  - intros ->. unfold matchDistribution. simpl. eexists. reflexivity.
  - intros res Hres.
    destruct (search_returns data test distributions kw res Hres)
      as (locals & _ & ->).
    assert (Hfin : Forall finite_D
              (fold_left
                 (loop_body scipy_stats kstest data test (p_threshold kw) locals)
                 (match distributions with
                  | None => all_distributions
                  | Some l => l
                  end) [])).
    { apply loop_finite. constructor. }
    assert (Hsorted := sort_sorted _ Hfin).
    split; [|split].
    + rewrite sort_Permutation. exact Hfin.
    + exact Hsorted.
    + intros best rest Heq. rewrite Heq in Hsorted.
      inversion Hsorted. assumption.
Qed.

(** C7.  A candidate [d] whose [try] body raises (the lookup of the
    generator, the fit of its parameters or the test) does not stop the
    search and leaves no trace: the search over a list containing [d]
    returns what the search over the list without [d] returns, and no
    returned entry bears the name [d]. *)
Theorem failing_candidate_is_skipped (data : list Q) (test : string)
        (kw : kwargs) (pre post : list string) (d : string) :
  (forall locals,
      preamble data test (p_threshold kw) kw = Ok locals ->
      exists e, try_body scipy_stats kstest data test (p_threshold kw) locals d
                = Raise e) ->
  search data test (Some (pre ++ d :: post)) kw
  = search data test (Some (pre ++ post)) kw
  /\ forall res,
      search data test (Some (pre ++ d :: post)) kw = Ok res ->
      ~ In d (map entry_name res).
Proof.
  intros Hfail. split.
  - unfold matchDistribution.
    destruct (negb (existsb (String.eqb test) ["p-roc"; "kstest"])); [reflexivity|].
    destruct (preamble data test (p_threshold kw) kw) as [locals | e] eqn:E;
      simpl; [|reflexivity].
    destruct (Hfail locals eq_refl) as [e He].
    rewrite (loop_skips _ _ _ _ _ _ pre post d e [] He). reflexivity.
  - intros res Hres Hin.
    destruct (search_returns data test _ kw res Hres) as (locals & Hpre & ->).
    apply in_map_iff in Hin. destruct Hin as (r & Hname & Hin).
    rewrite sort_Permutation in Hin.
    apply loop_entries in Hin. destruct Hin as [[] | [out Hout]].
    destruct (Hfail locals Hpre) as [e He].
    rewrite Hname in Hout. congruence.
Qed.

End MatchDistributionProperties.

Example toy_search :
  matchDistribution toy_stats toy_kstest toy_all [1; 2; 3] "kstest" None no_kwargs
  = Ok [(Fin (1 # 10), "expon", [1]); (Fin (3 # 10), "norm", [0; 1])].
Proof. reflexivity. Qed.

Lemma matchDistribution_sorted_witness :
  Forall finite_D [(Fin (1 # 10), "expon", [1]); (Fin (3 # 10), "norm", [0; 1])]
  /\ StronglySorted D_le [(Fin (1 # 10), "expon", [1]); (Fin (3 # 10), "norm", [0; 1])]
  /\ forall best rest,
      [(Fin (1 # 10), "expon", [1]); (Fin (3 # 10), "norm", [0; 1])] = best :: rest ->
      Forall (D_le best) rest.
Proof.
  apply (proj2 (matchDistribution_sorted toy_stats toy_kstest toy_all
                  [1; 2; 3] "kstest" None no_kwargs)).
  reflexivity.
Defined.

Lemma failing_candidate_is_skipped_witness :
  matchDistribution toy_stats toy_kstest toy_all [1; 2; 3] "kstest"
                    (Some (["norm"] ++ "cauchy" :: ["expon"])) no_kwargs
  = matchDistribution toy_stats toy_kstest toy_all [1; 2; 3] "kstest"
                      (Some (["norm"] ++ ["expon"])) no_kwargs
  /\ forall res,
      matchDistribution toy_stats toy_kstest toy_all [1; 2; 3] "kstest"
                        (Some (["norm"] ++ "cauchy" :: ["expon"])) no_kwargs = Ok res ->
      ~ In "cauchy" (map entry_name res).
Proof.
  apply (failing_candidate_is_skipped toy_stats toy_kstest toy_all
           [1; 2; 3] "kstest" no_kwargs ["norm"] ["expon"] "cauchy").
  intros locals _. eexists. reflexivity.
Defined.

(* ===================================================================== *)
(** * Further properties of the code *)

(** ** The empirical cdf *)

Lemma Q_of_nat_le (n m : nat) : (n <= m)%nat -> Q_of_nat n <= Q_of_nat m.
Proof.
  intros Hle. unfold Q_of_nat. rewrite <- Zle_Qle. lia.
Qed.

Lemma Q_of_nat_pos (n : nat) : (0 < n)%nat -> 0 < Q_of_nat n.
Proof.
  intros Hlt. unfold Q_of_nat. change 0 with (inject_Z 0).
  rewrite <- Zlt_Qlt. lia.
Qed.

Lemma Q_of_nat_add (n m : nat) : Q_of_nat (n + m) == Q_of_nat n + Q_of_nat m.
Proof.
  unfold Q_of_nat. rewrite Nat2Z.inj_add, inject_Z_plus. reflexivity.
Qed.

Lemma filter_length_mono {A} (f g : A -> bool) (l : list A) :
  (forall a, In a l -> f a = true -> g a = true) ->
  (length (filter f l) <= length (filter g l))%nat.
Proof.
  induction l as [|a l IH]; intros Hfg; simpl; [lia|].
  assert (IH' := IH (fun b Hb => Hfg b (or_intror Hb))).
  destruct (f a) eqn:Ef.
  - rewrite (Hfg a (or_introl eq_refl) Ef). simpl. lia.
  - destruct (g a); simpl; lia.
Qed.

Lemma filter_length_all {A} (f : A -> bool) (l : list A) :
  (forall a, In a l -> f a = true) -> length (filter f l) = length l.
Proof.
  induction l as [|a l IH]; intros Hf; simpl; [reflexivity|].
  rewrite (Hf a (or_introl eq_refl)). simpl.
  rewrite IH; [reflexivity|]. intros b Hb. apply Hf. right. exact Hb.
Qed.

Lemma filter_length_none {A} (f : A -> bool) (l : list A) :
  (forall a, In a l -> f a = false) -> length (filter f l) = 0%nat.
Proof.
  induction l as [|a l IH]; intros Hf; simpl; [reflexivity|].
  rewrite (Hf a (or_introl eq_refl)).
  apply IH. intros b Hb. apply Hf. right. exact Hb.
Qed.

Lemma count_le_bound (s : list Q) (x : Q) : (count_le s x <= length s)%nat.
Proof. unfold count_le. apply filter_length_le. Qed.

Lemma empirical_cdf_range (s : list Q) (x : Q) :
  s <> [] -> 0 <= empirical_cdf s x /\ empirical_cdf s x <= 1.
Proof.
  intros Hs. unfold empirical_cdf.
  assert (Hn : 0 < Q_of_nat (length s)).
  { apply Q_of_nat_pos. destruct s; [congruence | simpl; lia]. }
  split.
  - apply Qle_shift_div_l; [exact Hn|]. rewrite Qmult_0_l.
    apply (Q_of_nat_le 0). lia.
  - apply Qle_shift_div_r; [exact Hn|]. rewrite Qmult_1_l.
    apply Q_of_nat_le, count_le_bound.
Qed.

Lemma empirical_cdf_mono (s : list Q) (x y : Q) :
  s <> [] -> x <= y -> empirical_cdf s x <= empirical_cdf s y.
Proof.
  intros Hs Hxy. unfold empirical_cdf.
  assert (Hn : 0 < Q_of_nat (length s)).
  { apply Q_of_nat_pos. destruct s; [congruence | simpl; lia]. }
  unfold Qdiv. apply Qmult_le_compat_r.
  - apply Q_of_nat_le. unfold count_le. apply filter_length_mono.
    intros e _ He. apply Qle_bool_iff. apply Qle_bool_iff in He.
    eapply Qle_trans; eassumption.
  - apply Qlt_le_weak, Qinv_lt_0_compat, Hn.
Qed.

(** X1.  For stored samples with at least one element, the value of
    [Nonparametric.cdf] at a scalar lies between 0 and 1, and so does
    every element of the array it returns for an array. *)
Theorem Nonparametric_cdf_range (self : Nonparametric.t) :
  Nonparametric._dist_samples self <> [] ->
  (forall x, exists q, Nonparametric.cdf self (Scalar x) = Ok (Scalar q)
                       /\ 0 <= q /\ q <= 1)
  /\ (forall a r, Nonparametric.cdf self (Arr a) = Ok (Arr r) ->
                  length r = length a
                  /\ Forall (fun q => 0 <= q /\ q <= 1) r).
Proof.
  intros Hs. split.
  - intros x. eexists. split; [reflexivity|].
    rewrite mean_le_scalar. apply empirical_cdf_range, Hs.
  - intros a r Hr. unfold Nonparametric.cdf in Hr.
    destruct a as [|v a]; [discriminate|].
    assert (Er : r = map (fun v => mean (le_scalar (Nonparametric._dist_samples self) v))
                         (v :: a)) by (simpl in *; congruence).
    rewrite Er. split; [apply length_map|].
    apply Forall_forall. intros q Hq. apply in_map_iff in Hq.
    destruct Hq as (w & <- & _).
    rewrite mean_le_scalar. apply empirical_cdf_range, Hs.
Qed.

Lemma Nonparametric_cdf_range_witness :
  exists q, Nonparametric.cdf (Nonparametric.mk [1; 2; 3]) (Scalar 2) = Ok (Scalar q)
            /\ 0 <= q /\ q <= 1.
Proof.
  apply (proj1 (Nonparametric_cdf_range (Nonparametric.mk [1; 2; 3])
                  ltac:(discriminate)) 2).
Defined.

(** X2.  [Nonparametric.cdf] is monotone: for stored samples with at
    least one element and [x <= y], the value at [x] is at most the
    value at [y]. *)
Theorem Nonparametric_cdf_monotone (self : Nonparametric.t) (x y : Q) :
  Nonparametric._dist_samples self <> [] ->
  x <= y ->
  exists qx qy,
    Nonparametric.cdf self (Scalar x) = Ok (Scalar qx)
    /\ Nonparametric.cdf self (Scalar y) = Ok (Scalar qy)
    /\ qx <= qy.
Proof.
  intros Hs Hxy. eexists. eexists. split; [reflexivity|]. split; [reflexivity|].
  rewrite !mean_le_scalar. apply empirical_cdf_mono; assumption.
Qed.

Lemma Nonparametric_cdf_monotone_witness :
  exists qx qy,
    Nonparametric.cdf (Nonparametric.mk [1; 2; 3]) (Scalar 1) = Ok (Scalar qx)
    /\ Nonparametric.cdf (Nonparametric.mk [1; 2; 3]) (Scalar (5 # 2)) = Ok (Scalar qy)
    /\ qx <= qy.
Proof.
  apply (Nonparametric_cdf_monotone (Nonparametric.mk [1; 2; 3]) 1 (5 # 2)).
  - discriminate.
  - vm_compute. discriminate.
Defined.

(** X3.  [Nonparametric.cdf] reaches both ends: it is 1 at a value that
    no stored sample exceeds, and 0 at a value below every stored
    sample. *)
Theorem Nonparametric_cdf_extremes (self : Nonparametric.t) (x : Q) :
  Nonparametric._dist_samples self <> [] ->
  exists q, Nonparametric.cdf self (Scalar x) = Ok (Scalar q)
            /\ ((forall e, In e (Nonparametric._dist_samples self) -> e <= x) -> q == 1)
            /\ ((forall e, In e (Nonparametric._dist_samples self) -> x < e) -> q == 0).
Proof.
  intros Hs. eexists. split; [reflexivity|].
  assert (Hn : ~ Q_of_nat (length (Nonparametric._dist_samples self)) == 0).
  { intros H0.
    assert (Hp : 0 < Q_of_nat (length (Nonparametric._dist_samples self))).
    { apply Q_of_nat_pos. destruct (Nonparametric._dist_samples self);
        [congruence | simpl; lia]. }
    rewrite H0 in Hp. apply (Qlt_irrefl 0 Hp). }
  rewrite mean_le_scalar. unfold empirical_cdf, count_le. split.
  - intros Hall. rewrite filter_length_all.
    + field. exact Hn.
    + intros e He. apply Qle_bool_iff, Hall, He.
  - intros Hall. rewrite filter_length_none.
    + unfold Q_of_nat at 1. simpl. field. exact Hn.
    + intros e He. destruct (Qle_bool e x) eqn:E; [|reflexivity].
      apply Qle_bool_iff in E. exfalso.
      apply (Qlt_irrefl x). eapply Qlt_le_trans; [apply Hall, He | exact E].
Qed.

Lemma Nonparametric_cdf_extremes_witness :
  exists q, Nonparametric.cdf (Nonparametric.mk [1; 2; 3]) (Scalar 3) = Ok (Scalar q)
            /\ ((forall e, In e [1; 2; 3] -> e <= 3) -> q == 1)
            /\ ((forall e, In e [1; 2; 3] -> 3 < e) -> q == 0).
Proof.
  apply (Nonparametric_cdf_extremes (Nonparametric.mk [1; 2; 3]) 3).
  discriminate.
Defined.

(** ** More on the p-value translator *)

Lemma unknown_tail_eqb (tail : string) :
  ~ In tail known_tails ->
  (tail =? "left") = false /\ (tail =? "right") = false /\ (tail =? "any") = false.
Proof.
  intros Hnin. repeat split; apply String.eqb_neq; intros ->; apply Hnin;
    unfold known_tails; simpl; auto.
Qed.

(** X4.  [_pvalue] does not check [tail]: with a value that is none of
    ['left'], ['right'], ['any'] it answers as with ['left'], that is
    with the cdf untouched. *)
Theorem pvalue_unknown_tail (x : value) (cdf_func : value -> result value)
        (tail : string) :
  ~ In tail known_tails ->
  _pvalue x cdf_func tail = _pvalue x cdf_func "left".
Proof.
  intros Hnin. destruct (unknown_tail_eqb tail Hnin) as (Hl & Hr & Ha).
  unfold _pvalue. rewrite Hl, Hr, Ha. reflexivity.
Qed.

Lemma pvalue_unknown_tail_witness :
  _pvalue (Arr [1; 3]) (Nonparametric.cdf (Nonparametric.mk [1; 2; 3; 4])) "both"
  = _pvalue (Arr [1; 3]) (Nonparametric.cdf (Nonparametric.mk [1; 2; 3; 4])) "left".
Proof.
  apply (pvalue_unknown_tail (Arr [1; 3])
           (Nonparametric.cdf (Nonparametric.mk [1; 2; 3; 4])) "both").
  unfold known_tails. simpl. intros [H | [H | [H | []]]]; discriminate.
Defined.

Lemma _pvalue_raise (x : value) (cdf_func : value -> result value)
      (tail : string) (e : exn) :
  cdf_func (list1 x) = Raise e -> _pvalue x cdf_func tail = Raise e.
Proof.
  intros He. unfold _pvalue. destruct x; simpl in *; rewrite He; reflexivity.
Qed.

(** X5.  On an [MCNullDist] that holds distributions, the only way [p]
    fails is the [ValueError] of the length check: it raises exactly
    when the number of elements of [x] is not the number of
    distributions, and then it is a [ValueError]. *)
Theorem MCNullDist_p_errors {D : Type} `{DistClass D}
        (self : MCNullDist.t D) (dists : list D) (x : value) :
  MCNullDist._dist self = Some dists ->
  (p self x = Raise ValueError <-> size x <> length dists)
  /\ (forall e, p self x = Raise e -> e = ValueError).
Proof.
  intros Hd.
  assert (Hsz : size (list1 x) = size x) by (destruct x; reflexivity).
  destruct (Nat.eq_dec (length dists) (size x)) as [Heq | Hne].
  - destruct (MCNullDist_p_matching self dists x Hd Heq) as (r & Hr & _).
    split; [split|].
    + rewrite Hr. discriminate.
    + intros Hne. congruence.
    + intros e He. rewrite Hr in He. discriminate.
  - assert (Hraise : p self x = Raise ValueError).
    { apply _pvalue_raise.
      apply (MCNullDist_cdf_mismatch self dists (list1 x) Hd). congruence. }
    split; [split|].
    + intros _. congruence.
    + intros _. exact Hraise.
    + intros e He. congruence.
Qed.

Lemma MCNullDist_p_errors_witness :
  (p (sample_mc "any") (Scalar 1) = Raise ValueError
   <-> size (Scalar 1) <> length sample_dists)
  /\ (forall e, p (sample_mc "any") (Scalar 1) = Raise e -> e = ValueError).
Proof.
  apply (MCNullDist_p_errors (sample_mc "any") sample_dists (Scalar 1)).
  reflexivity.
Defined.

Lemma Forall2_map_same {A B C} (R : B -> C -> Prop) (f : A -> B) (g : A -> C)
      (l : list A) :
  (forall a, R (f a) (g a)) -> Forall2 R (map f l) (map g l).
Proof.
  intros HR. induction l; simpl; constructor; auto.
Qed.

(** X6.  For one and the same answer of the cdf, the p-values of the
    left and of the right tail add up to one, element by element. *)
Theorem left_right_complement (x : value) (cdf_func : value -> result value)
        (c : list Q) :
  cdf_func (list1 x) = Ok (Arr c) ->
  length c = size x ->
  exists l r,
    _pvalue x cdf_func "left" = Ok l
    /\ _pvalue x cdf_func "right" = Ok r
    /\ isscalar l = isscalar r
    /\ Forall2 (fun lv rv => lv + rv == 1) (flat l) (flat r).
Proof.
  intros Hc Hlen.
  destruct (_pvalue_elementwise x cdf_func "left" c Hc Hlen) as (l & Hl & Hsl & Hfl).
  destruct (_pvalue_elementwise x cdf_func "right" c Hc Hlen) as (r & Hr & Hsr & Hfr).
  exists l, r. split; [exact Hl|]. split; [exact Hr|]. split; [congruence|].
  rewrite Hfl, Hfr. apply Forall2_map_same. intros v.
  unfold tail_value. simpl. ring.
Qed.

Lemma left_right_complement_witness :
  exists l r,
    _pvalue (Scalar 2) (Nonparametric.cdf (Nonparametric.mk [1; 2; 3; 4])) "left" = Ok l
    /\ _pvalue (Scalar 2) (Nonparametric.cdf (Nonparametric.mk [1; 2; 3; 4])) "right"
       = Ok r
    /\ isscalar l = isscalar r
    /\ Forall2 (fun lv rv => lv + rv == 1) (flat l) (flat r).
Proof.
  apply (left_right_complement (Scalar 2)
           (Nonparametric.cdf (Nonparametric.mk [1; 2; 3; 4])) [2 / 4]).
  - vm_compute. reflexivity.
  - reflexivity.
Defined.

Lemma any_tail_half (c : Q) :
  (if Qle_bool (1 # 2) c then 1 - c else c) <= 1 # 2.
Proof.
  destruct (Qle_bool (1 # 2) c) eqn:E.
  - apply Qle_bool_iff in E. lra.
  - assert (Hlt : c < 1 # 2).
    { apply Qnot_le_lt. intros Hle. apply Qle_bool_iff in Hle. congruence. }
    lra.
Qed.

Lemma any_tail_nonneg (c : Q) :
  0 <= c -> c <= 1 -> 0 <= (if Qle_bool (1 # 2) c then 1 - c else c).
Proof.
  intros H0 H1. destruct (Qle_bool (1 # 2) c); lra.
Qed.

(** X7.  With [tail='any'] no p-value exceeds one half, whatever the
    cdf values are, and none is negative when the cdf values lie
    between 0 and 1: the value reported is the mass of the nearer tail,
    not twice that mass. *)
Theorem any_tail_at_most_half (x : value) (cdf_func : value -> result value)
        (c : list Q) :
  cdf_func (list1 x) = Ok (Arr c) ->
  length c = size x ->
  exists a,
    _pvalue x cdf_func "any" = Ok a
    /\ Forall (fun av => av <= 1 # 2) (flat a)
    /\ (Forall (fun v => 0 <= v /\ v <= 1) c -> Forall (fun av => 0 <= av) (flat a)).
Proof.
  intros Hc Hlen.
  destruct (_pvalue_elementwise x cdf_func "any" c Hc Hlen) as (a & Ha & _ & Hfa).
  exists a. split; [exact Ha|]. rewrite Hfa. split.
  - apply Forall_forall. intros q Hq. apply in_map_iff in Hq.
    destruct Hq as (v & <- & _). apply any_tail_half.
  - intros Hrange. apply Forall_forall. intros q Hq. apply in_map_iff in Hq.
    destruct Hq as (v & <- & Hv). rewrite Forall_forall in Hrange.
    destruct (Hrange v Hv). apply any_tail_nonneg; assumption.
Qed.

Lemma any_tail_at_most_half_witness :
  exists a,
    _pvalue (Arr [1; 4]) (Nonparametric.cdf (Nonparametric.mk [1; 2; 3; 4])) "any" = Ok a
    /\ Forall (fun av => av <= 1 # 2) (flat a)
    /\ (Forall (fun v => 0 <= v /\ v <= 1) [1 / 4; 4 / 4] ->
        Forall (fun av => 0 <= av) (flat a)).
Proof.
  apply (any_tail_at_most_half (Arr [1; 4])
           (Nonparametric.cdf (Nonparametric.mk [1; 2; 3; 4])) [1 / 4; 4 / 4]).
  - vm_compute. reflexivity.
  - reflexivity.
Defined.

Lemma filter_length_full {A} (f : A -> bool) (l : list A) :
  length (filter f l) = length l -> forall a, In a l -> f a = true.
Proof.
  induction l as [|b l IH]; simpl; intros Hlen a Hin; [contradiction|].
  destruct (f b) eqn:Eb; simpl in Hlen.
  - destruct Hin as [<- | Hin]; [exact Eb|].
    apply IH; [congruence | exact Hin].
  - assert (Hle := filter_length_le f l). lia.
Qed.

Lemma Q_of_nat_inj (n m : nat) : Q_of_nat n == Q_of_nat m -> n = m.
Proof.
  unfold Q_of_nat, Qeq. simpl. intros Heq. lia.
Qed.

(** X8.  The right-tail p-value of a scalar under a [FixedNullDist]
    around a [Nonparametric] distribution with at least one sample is
    never negative, and it is 0 exactly when no sample is strictly
    greater than the value: a sample equal to the value does not count
    towards the tail, so the p-value of the largest sample is 0. *)
Theorem right_tail_zero_iff_none_greater (dist : Nonparametric.t) (x : Q) :
  Nonparametric._dist_samples dist <> [] ->
  exists q,
    p (fixed_nonparametric "right" dist) (Scalar x) = Ok (Scalar q)
    /\ 0 <= q
    /\ (q == 0 <-> forall e, In e (Nonparametric._dist_samples dist) -> e <= x).
Proof.
  intros Hs. eexists. split; [reflexivity|].
  set (s := Nonparametric._dist_samples dist) in *.
  assert (Hp : 0 < Q_of_nat (length s)).
  { apply Q_of_nat_pos. destruct s; [congruence | simpl; lia]. }
  assert (Hn : ~ Q_of_nat (length s) == 0).
  { intros H0. rewrite H0 in Hp. apply (Qlt_irrefl 0 Hp). }
  rewrite mean_le_scalar.
  destruct (empirical_cdf_range s x Hs) as [_ Hle1].
  split; [lra|]. split.
  - intros Hzero e He.
    assert (Hone : empirical_cdf s x == 1) by lra.
    assert (Hk : Q_of_nat (count_le s x) == Q_of_nat (length s)).
    { setoid_replace (Q_of_nat (count_le s x))
        with (empirical_cdf s x * Q_of_nat (length s))
        by (unfold empirical_cdf; field; exact Hn).
      rewrite Hone. ring. }
    apply Q_of_nat_inj in Hk. unfold count_le in Hk.
    apply Qle_bool_iff. apply (filter_length_full _ s Hk e He).
  - intros Hall.
    assert (Hone : empirical_cdf s x == 1).
    { unfold empirical_cdf, count_le. rewrite filter_length_all.
      - field. exact Hn.
      - intros e He. apply Qle_bool_iff, Hall, He. }
    lra.
Qed.

Lemma right_tail_zero_iff_none_greater_witness :
  exists q,
    p (fixed_nonparametric "right" (Nonparametric.mk [1; 2; 3; 4])) (Scalar 2)
    = Ok (Scalar q)
    /\ 0 <= q
    /\ (q == 0 <-> forall e, In e [1; 2; 3; 4] -> e <= 2).
Proof.
  apply (right_tail_zero_iff_none_greater (Nonparametric.mk [1; 2; 3; 4]) 2).
  discriminate.
Defined.

(* ===================================================================== *)
(** ** More on [MCNullDist] *)

Section FitOutcomes.

Context {D : Type} `{DistClass D}.

Variable measure : list Dataset.t -> result value.
Variable vdata : option Dataset.t.
Variable permutation : Z -> list Z -> list Z.

#[local] Abbreviation world := (MCNullDist.world D).
#[local] Abbreviation cycle := (MCNullDist.cycle (D := D) measure vdata permutation).

(** What [fit] may change, whatever its outcome. *)
Lemma fit_frame (w : world) :
  let out := MCNullDist.fit measure vdata permutation w in
  MCNullDist.base (MCNullDist.self (snd out)) = MCNullDist.base (MCNullDist.self w)
  /\ MCNullDist.__permutations (MCNullDist.self (snd out))
     = MCNullDist.__permutations (MCNullDist.self w)
  /\ original (MCNullDist.wdata (snd out)) = original (MCNullDist.wdata w)
  /\ (fst out <> Ok tt ->
      MCNullDist._dist (MCNullDist.self (snd out)) = MCNullDist._dist (MCNullDist.self w))
  /\ (fst out = Ok tt ->
      exists dists, MCNullDist._dist (MCNullDist.self (snd out)) = Some dists).
Proof.
  cbv zeta. rewrite fit_run.
  destruct (loop_frame measure vdata permutation
              (xrange (MCNullDist.__permutations (MCNullDist.self w))) [] w)
    as (Hs & Ho & _).
  destruct (for_each _ _ _ w) as [[ms | e] w1]; simpl in Hs, Ho.
  - destruct (asarray ms) as [arr | e]; cbv zeta.
    + destruct (reshape _ _) as [rs | e].
      * destruct (map_result _ _) as [dist | e]; simpl;
          rewrite ?permuteLabels_original, Hs, Ho;
          (split; [reflexivity|]); (split; [reflexivity|]); (split; [reflexivity|]);
          split; intros Hout; try congruence.
        exists dist. reflexivity.
      * simpl. rewrite permuteLabels_original, Hs, Ho.
        repeat split; intros; congruence.
    + simpl. rewrite permuteLabels_original, Hs, Ho.
      repeat split; intros; congruence.
  - simpl. rewrite Hs, Ho. repeat split; intros; congruence.
Qed.

(** A measurement that raises in cycle [n] ends the loop there. *)
Lemma loop_raises (ps : list Z) :
  forall (n : nat) (acc : list value) (w : world) (e : exn) (d : Dataset.t),
    nth_error (permuted permutation (MCNullDist.wdata w) ps) n = Some d ->
    (forall i di, (i < n)%nat ->
                  nth_error (permuted permutation (MCNullDist.wdata w) ps) i = Some di ->
                  exists m, measure (MCNullDist.measure_args vdata di) = Ok m) ->
    measure (MCNullDist.measure_args vdata d) = Raise e ->
    for_each ps cycle acc w
    = (Raise e,
       MCNullDist.mk_world (MCNullDist.self w) d (MCNullDist.calls w ++ cycles (S n))).
Proof.
  induction ps as [|q ps IH]; intros n acc w e d Hd Hbefore Hraise.
  - destruct n; discriminate.
  - simpl in Hd |- *. unfold mbind. rewrite cycle_run. cbv zeta.
    destruct n as [|n].
    + simpl in Hd. injection Hd as <-. rewrite Hraise. reflexivity.
    + simpl in Hd.
      destruct (Hbefore 0%nat _ ltac:(lia) eq_refl) as [m Hm].
      rewrite Hm.
      rewrite (IH n _ _ e d); [| exact Hd | | exact Hraise].
      * simpl. rewrite <- app_assoc. reflexivity.
      * intros i di Hi Hdi. apply (Hbefore (S i) di); [lia | exact Hdi].
Qed.

End FitOutcomes.

Lemma permuted_is_permuted (permutation : Z -> list Z -> list Z) (ps : list Z) :
  forall (wdata d : Dataset.t),
    In d (permuted permutation wdata ps) ->
    Dataset.origlabels d = Some (original wdata).
Proof.
  induction ps as [|q ps IH]; intros wdata d Hin; simpl in Hin; [contradiction|].
  destruct Hin as [<- | Hin].
  - unfold Dataset.permuteLabels, original. simpl.
    destruct (Dataset.origlabels wdata); reflexivity.
  - rewrite (IH _ _ Hin). rewrite permuteLabels_original. reflexivity.
Qed.

Lemma permuted_length (permutation : Z -> list Z -> list Z) (ps : list Z)
      (wdata : Dataset.t) :
  length (permuted permutation wdata ps) = length ps.
Proof.
  revert wdata. induction ps as [|q ps IH]; intros wdata; simpl;
    [reflexivity | rewrite IH; reflexivity].
Qed.

(** X9.  A measurement that raises ends [fit] at once.  If the measure
    answers in the cycles before cycle [n] and raises there, [fit]
    raises the same exception after [n + 1] permutations and
    measurements; no restoring call is made, so the working dataset is
    left as permuted in that cycle, with its original labels still kept
    aside, and the instance is left as it was. *)
Theorem fit_stops_at_failing_measure {D : Type} `{DistClass D}
        (measure : list Dataset.t -> result value) (vdata : option Dataset.t)
        (permutation : Z -> list Z -> list Z) (w : MCNullDist.world D)
        (n : nat) (e : exn) (d : Dataset.t) :
  let seen := permuted permutation (MCNullDist.wdata w)
                       (xrange (MCNullDist.__permutations (MCNullDist.self w))) in
  nth_error seen n = Some d ->
  (forall i di, (i < n)%nat -> nth_error seen i = Some di ->
                exists m, measure (MCNullDist.measure_args vdata di) = Ok m) ->
  measure (MCNullDist.measure_args vdata d) = Raise e ->
  MCNullDist.fit measure vdata permutation w
  = (Raise e,
     MCNullDist.mk_world (MCNullDist.self w) d (MCNullDist.calls w ++ cycles (S n)))
  /\ Dataset.origlabels d = Some (original (MCNullDist.wdata w)).
Proof.
  intros seen Hd Hbefore Hraise. split.
  - rewrite fit_run.
    rewrite (loop_raises measure vdata permutation _ n [] w e d Hd Hbefore Hraise).
    reflexivity.
  - apply (permuted_is_permuted permutation
             (xrange (MCNullDist.__permutations (MCNullDist.self w)))).
    eapply nth_error_In. exact Hd.
Qed.

Lemma fit_stops_at_failing_measure_witness :
  MCNullDist.fit picky_measure None reverse_labels (sample_world 3)
  = (Raise (ForeignError "measure"),
     MCNullDist.mk_world (MCNullDist.self (sample_world 3))
       (Dataset.mk [0; 0; 1; 1]%Z (Some [0; 0; 1; 1]%Z))
       (MCNullDist.calls (sample_world 3) ++ cycles 2))
  /\ Dataset.origlabels (Dataset.mk [0; 0; 1; 1]%Z (Some [0; 0; 1; 1]%Z))
     = Some (original (MCNullDist.wdata (sample_world 3))).
Proof.
  apply (fit_stops_at_failing_measure picky_measure None reverse_labels
           (sample_world 3) 1 (ForeignError "measure")
           (Dataset.mk [0; 0; 1; 1]%Z (Some [0; 0; 1; 1]%Z))).
  - reflexivity.
  - intros i di Hi Hdi. destruct i; [|lia].
    vm_compute in Hdi. injection Hdi as <-. eexists. reflexivity.
  - reflexivity.
Defined.

(** X10.  Whatever its outcome, [fit] leaves the tail and the number of
    permutations of the instance as they were and keeps the labels to
    restore; and when it does not return normally, the distributions
    fitted before stay in place. *)
Theorem fit_keeps_configuration {D : Type} `{DistClass D}
        (measure : list Dataset.t -> result value) (vdata : option Dataset.t)
        (permutation : Z -> list Z -> list Z) (w w' : MCNullDist.world D)
        (r : result unit) :
  MCNullDist.fit measure vdata permutation w = (r, w') ->
  _tail (MCNullDist.self w') = _tail (MCNullDist.self w)
  /\ MCNullDist.__permutations (MCNullDist.self w')
     = MCNullDist.__permutations (MCNullDist.self w)
  /\ original (MCNullDist.wdata w') = original (MCNullDist.wdata w)
  /\ (r <> Ok tt ->
      MCNullDist._dist (MCNullDist.self w') = MCNullDist._dist (MCNullDist.self w)).
Proof.
  intros Hfit.
  destruct (fit_frame measure vdata permutation w) as (Hb & Hp & Ho & Hd & _).
  rewrite Hfit in Hb, Hp, Ho, Hd. simpl in Hb, Hp, Ho, Hd.
  repeat split; try assumption.
  simpl. rewrite Hb. reflexivity.
Qed.

Lemma fit_keeps_configuration_witness :
  _tail (MCNullDist.self (snd (MCNullDist.fit picky_measure None reverse_labels
                                 (sample_world 3))))
  = _tail (MCNullDist.self (sample_world 3))
  /\ MCNullDist.__permutations
       (MCNullDist.self (snd (MCNullDist.fit picky_measure None reverse_labels
                                (sample_world 3))))
     = MCNullDist.__permutations (MCNullDist.self (sample_world 3))
  /\ original (MCNullDist.wdata (snd (MCNullDist.fit picky_measure None reverse_labels
                                        (sample_world 3))))
     = original (MCNullDist.wdata (sample_world 3))
  /\ (Raise (ForeignError "measure") <> Ok tt ->
      MCNullDist._dist
        (MCNullDist.self (snd (MCNullDist.fit picky_measure None reverse_labels
                                 (sample_world 3))))
      = MCNullDist._dist (MCNullDist.self (sample_world 3))).
Proof.
  apply (fit_keeps_configuration picky_measure None reverse_labels (sample_world 3)).
  vm_compute. reflexivity.
Defined.

Lemma reachable_has_list {D : Type} `{DistClass D} (self : MCNullDist.t D) :
  reachable self -> exists dists, MCNullDist._dist self = Some dists.
Proof.
  induction 1 as [permutations tail self Hinit | self _ _
                 | measure vdata permutation w _ (dists & IH)].
  - unfold MCNullDist.__init__ in Hinit.
    destruct (NullDist.__init__ tail); simpl in Hinit; [|discriminate].
    injection Hinit as <-. exists []. reflexivity.
  - exists []. reflexivity.
  - destruct (fit_frame measure vdata permutation w) as (_ & _ & _ & Hfail & Hok).
    destruct (fst (MCNullDist.fit measure vdata permutation w)) as [[] | e] eqn:E.
    + apply Hok. reflexivity.
    + exists dists. rewrite Hfail; [exact IH | discriminate].
Qed.

(** X11.  The guard of [cdf] against an instance that was never fit
    cannot fire: on an instance built by the constructor and changed
    only by [fit] and [clean], [_dist] is always a list, never [None],
    so [cdf] never raises the [RuntimeError] "Distribution has to be
    fit first"; an unfit instance is told apart only by the length
    check. *)
Theorem cdf_never_RuntimeError {D : Type} `{DistClass D}
        (self : MCNullDist.t D) (x : value) :
  reachable self ->
  MCNullDist._dist self <> None
  /\ MCNullDist.cdf self x <> Raise RuntimeError.
Proof.
  intros Hreach. destruct (reachable_has_list self Hreach) as [dists Hd].
  split; [congruence|].
  destruct (Nat.eq_dec (length dists) (size x)) as [Heq | Hne].
  - rewrite (MCNullDist_cdf_matching self dists x Hd Heq). discriminate.
  - rewrite (MCNullDist_cdf_mismatch self dists x Hd Hne). discriminate.
Qed.

Lemma cdf_never_RuntimeError_witness :
  MCNullDist._dist sample_fitted <> None
  /\ MCNullDist.cdf sample_fitted (Scalar 1) <> Raise RuntimeError.
Proof.
  apply (cdf_never_RuntimeError sample_fitted (Scalar 1)).
  apply (reach_fit label_measure None reverse_labels (sample_world 3)).
  apply (reach_init 3 "left"). reflexivity.
Defined.

(** X12.  [clean] drops the fitted distributions and nothing else: the
    instance answers as an unfit one ([ValueError] for every [x] with an
    element, the empty array for the empty array), while the tail, the
    number of permutations and the samples stored in the [dist_samples]
    state stay as they were. *)
Theorem clean_drops_distributions {D : Type} `{DistClass D}
        (self : MCNullDist.t D) :
  (forall x, (1 <= size x)%nat ->
             MCNullDist.cdf (MCNullDist.clean self) x = Raise ValueError)
  /\ MCNullDist.cdf (MCNullDist.clean self) (Arr []) = Ok (Arr [])
  /\ _tail (MCNullDist.clean self) = _tail self
  /\ MCNullDist.__permutations (MCNullDist.clean self) = MCNullDist.__permutations self
  /\ MCNullDist.dist_samples (MCNullDist.clean self) = MCNullDist.dist_samples self.
Proof.
  split; [|repeat split].
  intros x Hx. apply (MCNullDist_cdf_mismatch (MCNullDist.clean self) []).
  - reflexivity.
  - simpl. lia.
Qed.

Lemma clean_drops_distributions_witness :
  MCNullDist.cdf (MCNullDist.clean sample_fitted) (Arr [0; 4]) = Raise ValueError.
Proof.
  apply (proj1 (clean_drops_distributions sample_fitted) (Arr [0; 4])).
  simpl. lia.
Defined.

Example clean_after_fit :
  MCNullDist.cdf sample_fitted (Arr [0; 4]) <> Raise ValueError
  /\ MCNullDist.cdf (MCNullDist.clean sample_fitted) (Arr [0; 4]) = Raise ValueError
  /\ MCNullDist.dist_samples (MCNullDist.clean sample_fitted)
     = Some (mk_ndarray [3%nat; 2%nat] [1; 4; 0; 4; 1; 4]).
Proof.
  split; [vm_compute; discriminate|]. split; vm_compute; reflexivity.
Qed.

(** X13.  With [permutations <= 0] the loop of [fit] is not entered:
    the measure is never called and the only call on the working
    dataset is the restoring one; [fit] then raises, and the
    distributions held before are left in place. *)
Theorem fit_nothing_to_permute {D : Type} `{DistClass D}
        (measure : list Dataset.t -> result value) (vdata : option Dataset.t)
        (permutation : Z -> list Z -> list Z) (w : MCNullDist.world D) :
  (MCNullDist.__permutations (MCNullDist.self w) <= 0)%Z ->
  exists e w',
    MCNullDist.fit measure vdata permutation w = (Raise e, w')
    /\ MCNullDist.calls w' = MCNullDist.calls w ++ [PermuteLabels false]
    /\ MCNullDist._dist (MCNullDist.self w') = MCNullDist._dist (MCNullDist.self w).
Proof.
  intros Hperm. rewrite fit_run.
  assert (Hx : xrange (MCNullDist.__permutations (MCNullDist.self w)) = []).
  { unfold xrange. replace (Z.to_nat _) with 0%nat by lia. reflexivity. }
  rewrite Hx. simpl. eexists. eexists. split; [reflexivity|].
  split; reflexivity.
Qed.

Lemma fit_nothing_to_permute_witness :
  exists e w',
    MCNullDist.fit label_measure None reverse_labels (sample_world (-2)) = (Raise e, w')
    /\ MCNullDist.calls w' = MCNullDist.calls (sample_world (-2)) ++ [PermuteLabels false]
    /\ MCNullDist._dist (MCNullDist.self w')
       = MCNullDist._dist (MCNullDist.self (sample_world (-2))).
Proof.
  apply (fit_nothing_to_permute label_measure None reverse_labels (sample_world (-2))).
  simpl. lia.
Defined.

(** *** From the measurements to the cdf *)

Lemma scalars_flat (ms : list value) :
  Forall (has_elements 1 true) ms -> map scalar_of ms = flat_map flat ms.
Proof.
  induction 1 as [|m ms [Hs _] _ IH]; simpl; [reflexivity|].
  destruct m; [|discriminate]. simpl. rewrite IH. reflexivity.
Qed.

Lemma has_elements_flat (k : nat) (scalar : bool) (ms : list value) :
  Forall (has_elements k scalar) ms -> Forall (fun m => length (flat m) = k) ms.
Proof.
  apply Forall_impl. intros m [_ Hk]. rewrite <- size_flat. exact Hk.
Qed.

(** Column [j] of the rows [ms] laid out one after the other. *)
Lemma column_of_rows (k j : nat) (ms : list value) :
  (j < k)%nat ->
  Forall (fun m => length (flat m) = k) ms ->
  map (fun i => nth (i * k + j) (flat_map flat ms) 0) (seq 0 (length ms))
  = map (fun m => nth j (flat m) 0) ms.
Proof.
  intros Hj. induction 1 as [|m ms Hm _ IH]; [reflexivity|].
  cbn [length seq map flat_map]. f_equal.
  - simpl. apply app_nth1. lia.
  - rewrite <- seq_shift, map_map, <- IH. apply map_ext. intros i.
    replace (S i * k + j)%nat with (length (flat m) + (i * k + j))%nat by lia.
    apply app_nth2_plus.
Qed.

Lemma columns_nth (k j : nat) (ms : list value) :
  (j < k)%nat ->
  Forall (fun m => length (flat m) = k) ms ->
  nth_error (columns (mk_ndarray [length ms; k] (flat_map flat ms))) j
  = Some (mk_ndarray [length ms] (map (fun m => nth j (flat m) 0) ms)).
Proof.
  intros Hj Hms. unfold columns. cbn [shape data].
  rewrite nth_error_map.
  assert (Hseq : nth_error (seq 0 k) j = Some j).
  { rewrite nth_error_nth' with (d := 0%nat) by (rewrite length_seq; exact Hj).
    rewrite seq_nth by exact Hj. reflexivity. }
  rewrite Hseq. simpl. rewrite (column_of_rows k j ms Hj Hms). reflexivity.
Qed.

Lemma Forall2_nth_error {A B} (R : A -> B -> Prop) (l : list A) (l' : list B)
      (j : nat) (a : A) :
  Forall2 R l l' -> nth_error l j = Some a ->
  exists b, nth_error l' j = Some b /\ R a b.
Proof.
  intros HR. revert j. induction HR as [|x y l l' Hxy _ IH]; intros [|j] Hj;
    simpl in *; try discriminate.
  - injection Hj as <-. exists y. split; [reflexivity | exact Hxy].
  - apply IH, Hj.
Qed.

(** [fit] on a fitting class, with a measure of [k] elements and at
    least one permutation: the rows are the measurements, and the
    distribution at each position is fitted to a column. *)
Lemma fit_returns {D : Type} `{DistClass D}
      (measure : list Dataset.t -> result value) (vdata : option Dataset.t)
      (permutation : Z -> list Z -> list Z) (w : MCNullDist.world D) (k : nat) :
  fits_every D ->
  measure_has k measure ->
  (1 <= MCNullDist.__permutations (MCNullDist.self w))%Z ->
  exists w' ms dists,
    MCNullDist.fit measure vdata permutation w = (Ok tt, w')
    /\ length ms = Z.to_nat (MCNullDist.__permutations (MCNullDist.self w))
    /\ Forall (fun m => length (flat m) = k) ms
    /\ Forall2 (fun ds m => measure (MCNullDist.measure_args vdata ds) = Ok m)
               (permuted permutation (MCNullDist.wdata w)
                         (xrange (MCNullDist.__permutations (MCNullDist.self w)))) ms
    /\ MCNullDist._dist (MCNullDist.self w') = Some dists
    /\ Forall2 (fun samples d => MCNullDist.fit_element samples = Ok d)
               (columns (mk_ndarray [length ms; k] (flat_map flat ms))) dists.
Proof.
  intros Hfits [scalar Hm] Hperm.
  set (permutations := MCNullDist.__permutations (MCNullDist.self w)) in *.
  destruct (loop_complete measure vdata permutation (has_elements k scalar) Hm
              (xrange permutations) [] w)
    as (ms & w1 & Hrun & Hself & _ & _ & Hlen & Hgood & Hmeas).
  rewrite xrange_length in Hlen. simpl in Hrun.
  assert (Hne : ms <> []) by (intros ->; simpl in Hlen; lia).
  assert (Hrows : length ms <> 0%nat) by lia.
  assert (Harr : exists arr,
             asarray ms = Ok arr
             /\ data arr = flat_map flat ms
             /\ (shape arr = [length ms] /\ k = 1%nat \/ shape arr = [length ms; k])).
  { destruct scalar.
    - assert (Hk : k = 1%nat).
      { destruct ms as [|m ms]; [congruence|].
        inversion Hgood as [|? ? [Hs Hk] _]. destruct m; [|discriminate].
        symmetry. exact Hk. }
      subst k. eexists. split; [apply asarray_scalars; assumption|].
      split; [apply scalars_flat, Hgood | left; auto].
    - eexists. split; [apply (asarray_arrays k); assumption|].
      split; [reflexivity | right; reflexivity]. }
  destruct Harr as (arr & Harr & Hdata & Hshape).
  destruct (fit_distributions arr (length ms) k Hrows Hshape)
    as (cols & Hreshape & Hcols & _ & _).
  destruct (map_result_total MCNullDist.fit_element cols (fits_every_element Hfits))
    as (dists & Hdists & Hfitted).
  eexists. exists ms, dists. split.
  { rewrite fit_run. fold permutations. rewrite Hrun, Harr. cbv zeta.
    rewrite Hreshape, Hcols, Hdists. reflexivity. }
  split; [exact Hlen|]. split; [apply (has_elements_flat k scalar), Hgood|].
  split; [exact Hmeas|]. split; [reflexivity|].
  rewrite <- Hdata, Hcols. exact Hfitted.
Qed.

(** X14.  The estimate end to end.  After [fit] with the default
    [Nonparametric] class, a measure of [k] elements and at least one
    permutation, [cdf] at an [x] of [k] elements answers, for each
    element, with the fraction of the recorded measurements whose
    element at that position is less than or equal to it. *)
Theorem fit_then_cdf_counts_measurements
        (measure : list Dataset.t -> result value) (vdata : option Dataset.t)
        (permutation : Z -> list Z -> list Z)
        (w : MCNullDist.world Nonparametric.t) (k : nat) :
  measure_has k measure ->
  (1 <= MCNullDist.__permutations (MCNullDist.self w))%Z ->
  exists w' ms,
    MCNullDist.fit measure vdata permutation w = (Ok tt, w')
    /\ length ms = Z.to_nat (MCNullDist.__permutations (MCNullDist.self w))
    /\ Forall2 (fun ds m => measure (MCNullDist.measure_args vdata ds) = Ok m)
               (permuted permutation (MCNullDist.wdata w)
                         (xrange (MCNullDist.__permutations (MCNullDist.self w)))) ms
    /\ forall x,
        size x = k ->
        exists r,
          MCNullDist.cdf (MCNullDist.self w') x = Ok (Arr r)
          /\ length r = k
          /\ forall j v,
              nth_error (flat x) j = Some v ->
              exists q,
                nth_error r j = Some q
                /\ q == empirical_cdf (map (fun m => nth j (flat m) 0) ms) v.
Proof.
  intros Hm Hperm.
  destruct (fit_returns measure vdata permutation w k Nonparametric_fits_every Hm Hperm)
    as (w' & ms & dists & Hfit & Hlen & Hflat & Hmeas & Hd & Hfitted).
  exists w', ms. split; [exact Hfit|]. split; [exact Hlen|]. split; [exact Hmeas|].
  intros x Hx.
  assert (Hk : length dists = k).
  { rewrite <- (Forall2_length Hfitted). apply columns_length. }
  assert (Hdx : length dists = size x) by congruence.
  eexists. split; [apply (MCNullDist_cdf_matching _ dists x Hd Hdx)|].
  split.
  { rewrite length_map, length_combine, <- size_flat, Hdx, Nat.min_id. exact Hx. }
  intros j v Hv.
  assert (Hj : (j < k)%nat).
  { rewrite <- Hx, size_flat. apply nth_error_Some. congruence. }
  destruct (Forall2_nth_error _ _ _ j _ Hfitted (columns_nth k j ms Hj Hflat))
    as (d & Hdj & Hfit_d).
  injection Hfit_d as <-.
  eexists. split; [apply (cdfs_nth dists (flat x) j v _ Hv Hdj)|].
  apply mean_le_scalar.
Qed.

Lemma fit_then_cdf_counts_measurements_witness :
  exists w' ms,
    MCNullDist.fit label_measure None reverse_labels (sample_world 3) = (Ok tt, w')
    /\ length ms = Z.to_nat 3
    /\ Forall2 (fun ds m => label_measure (MCNullDist.measure_args None ds) = Ok m)
               (permuted reverse_labels (Dataset.mk [0; 0; 1; 1]%Z None) (xrange 3)) ms
    /\ forall x,
        size x = 2%nat ->
        exists r,
          MCNullDist.cdf (MCNullDist.self w') x = Ok (Arr r)
          /\ length r = 2%nat
          /\ forall j v,
              nth_error (flat x) j = Some v ->
              exists q,
                nth_error r j = Some q
                /\ q == empirical_cdf (map (fun m => nth j (flat m) 0) ms) v.
Proof.
  apply (fit_then_cdf_counts_measurements label_measure None reverse_labels
           (sample_world 3) 2).
  - exact label_measure_has_two.
  - simpl. lia.
Defined.

(* ===================================================================== *)
(** ** More on the distribution search *)

Section SearchEntries.

Variable scipy_stats : string -> option dist_gen.
Variable kstest : list Q -> string -> list Q -> result (pyfloat * pyfloat).
Variable all_distributions : list string.

Variable data : list Q.
Variable test : string.
Variable p_thr : Q.
Variable locals : option proc_locals.

#[local] Abbreviation body := (try_body scipy_stats kstest data test p_thr locals).
#[local] Abbreviation step := (loop_body scipy_stats kstest data test p_thr locals).

#[local] Abbreviation accepted :=
  (accepted_entry scipy_stats kstest data test p_thr locals).

Lemma step_entries (results : list entry) (d : string) (r : entry) :
  In r (step results d) -> In r results \/ (entry_name r = d /\ accepted r).
Proof.
  unfold loop_body.
  destruct (body d) as [[[Dv pv] ps] | e] eqn:E; [|auto].
  destruct (fgt pv p_thr && negb (isnan Dv)) eqn:C; [|auto].
  intros Hin. apply in_app_or in Hin. destruct Hin as [Hold | [<- | []]]; [auto|].
  right. split; [reflexivity|].
  apply andb_true_iff in C. destruct C as [Cp Cn]. apply negb_true_iff in Cn.
  exists pv. unfold entry_name, entry_D, entry_params. simpl.
  repeat split; assumption.
Qed.

Lemma loop_sound (ds : list string) (results : list entry) (r : entry) :
  In r (fold_left step ds results) ->
  In r results \/ (In (entry_name r) ds /\ accepted r).
Proof.
  revert results. induction ds as [|d ds IH]; intros results Hin; simpl in Hin.
  - left. exact Hin.
  - destruct (IH _ Hin) as [Hstep | [Hds Hacc]].
    + destruct (step_entries results d r Hstep) as [Hold | [Hname Hacc]].
      * left. exact Hold.
      * right. split; [left; auto | exact Hacc].
    + right. split; [right; exact Hds | exact Hacc].
Qed.

Lemma step_keeps (results : list entry) (d : string) (r : entry) :
  In r results -> In r (step results d).
Proof.
  intros Hin. unfold loop_body.
  destruct (body d) as [[[Dv pv] ps] | e]; [|exact Hin].
  destruct (fgt pv p_thr && negb (isnan Dv)); [|exact Hin].
  apply in_or_app. left. exact Hin.
Qed.

Lemma loop_keeps (ds : list string) (results : list entry) (r : entry) :
  In r results -> In r (fold_left step ds results).
Proof.
  revert results. induction ds as [|d ds IH]; intros results Hin; simpl.
  - exact Hin.
  - apply IH, step_keeps, Hin.
Qed.

Lemma loop_complete_entries (ds : list string) (results : list entry)
      (d : string) (Dv pv : pyfloat) (ps : list Q) :
  In d ds ->
  body d = Ok (Dv, pv, ps) ->
  fgt pv p_thr = true ->
  isnan Dv = false ->
  In (Dv, d, ps) (fold_left step ds results).
Proof.
  intros Hin Hbody Hp Hn. revert results.
  induction ds as [|d' ds IH]; intros results; [contradiction|].
  simpl. destruct Hin as [-> | Hin].
  - apply loop_keeps. unfold loop_body. rewrite Hbody, Hp, Hn. simpl.
    apply in_or_app. right. left. reflexivity.
  - apply IH, Hin.
Qed.

Lemma step_length (results : list entry) (d : string) :
  (length (step results d) <= S (length results))%nat.
Proof.
  unfold loop_body.
  destruct (body d) as [[[Dv pv] ps] | e]; [|lia].
  destruct (fgt pv p_thr && negb (isnan Dv)); [|lia].
  rewrite length_app. simpl. lia.
Qed.

Lemma loop_length (ds : list string) (results : list entry) :
  (length (fold_left step ds results) <= length ds + length results)%nat.
Proof.
  revert results. induction ds as [|d ds IH]; intros results; simpl; [lia|].
  specialize (IH (step results d)).
  assert (Hs := step_length results d). lia.
Qed.

End SearchEntries.

Lemma kstest_body (scipy_stats : string -> option dist_gen)
      (kstest : list Q -> string -> list Q -> result (pyfloat * pyfloat))
      (data : list Q) (p_thr : Q) (locals : option proc_locals) (d : string)
      (Dv pv : pyfloat) (ps : list Q) :
  try_body scipy_stats kstest data "kstest" p_thr locals d = Ok (Dv, pv, ps)
  <-> exists g, scipy_stats d = Some g
                /\ gen_fit g data = Ok ps
                /\ kstest data d ps = Ok (Dv, pv).
Proof.
  unfold try_body, getattr_scipy_stats. simpl. split.
  - destruct (scipy_stats d) as [g|]; simpl; [|discriminate].
    destruct (gen_fit g data) as [ps'|] eqn:F; simpl; [|discriminate].
    destruct (kstest data d ps') as [[Dv' pv']|] eqn:E; simpl; [|discriminate].
    intros [= -> -> ->]. exists g. split; [reflexivity|]. split; assumption.
  - intros (g & -> & Hf & Hk). simpl. rewrite Hf. simpl. rewrite Hk. reflexivity.
Qed.

Section KstestSearch.

Variable scipy_stats : string -> option dist_gen.
Variable kstest : list Q -> string -> list Q -> result (pyfloat * pyfloat).
Variable all_distributions : list string.

#[local] Abbreviation search := (matchDistribution scipy_stats kstest all_distributions).

Lemma kstest_search_result (data : list Q) (distributions : option (list string))
      (kw : kwargs) :
  search data "kstest" distributions kw
  = Ok (sort (fold_left
                (loop_body scipy_stats kstest data "kstest" (p_threshold kw) None)
                (match distributions with
                 | None => all_distributions
                 | Some l => l
                 end) [])).
Proof. reflexivity. Qed.

(** X15.  Every entry returned with [test='kstest'] is backed by its
    candidate: its name is one of the candidates (those of
    [scipy.stats] when no list is given), its parameters are what the
    generator of that name fitted to the data, its distance is the
    number [kstest] reported for them, and the [p] that [kstest]
    reported exceeds the threshold.  No candidate yields more than one
    entry per listing. *)
Theorem kstest_entries_are_backed (data : list Q)
        (distributions : option (list string)) (kw : kwargs) (res : list entry) :
  search data "kstest" distributions kw = Ok res ->
  let candidates := match distributions with
                    | None => all_distributions
                    | Some l => l
                    end in
  (length res <= length candidates)%nat
  /\ forall r, In r res ->
       In (entry_name r) candidates
       /\ isnan (entry_D r) = false
       /\ exists g pv,
           scipy_stats (entry_name r) = Some g
           /\ gen_fit g data = Ok (entry_params r)
           /\ kstest data (entry_name r) (entry_params r) = Ok (entry_D r, pv)
           /\ fgt pv (p_threshold kw) = true.
Proof.
  rewrite kstest_search_result. intros [= <-] candidates. split.
  - rewrite (Permutation_length (sort_Permutation _)).
    assert (Hl := loop_length scipy_stats kstest data "kstest" (p_threshold kw) None
                    candidates []).
    simpl in Hl. fold candidates. lia.
  - intros r Hin. rewrite sort_Permutation in Hin.
    apply loop_sound in Hin. destruct Hin as [[] | [Hname (pv & Hbody & Hp & Hn)]].
    apply kstest_body in Hbody. destruct Hbody as (g & Hg & Hf & Hk).
    split; [exact Hname|]. split; [exact Hn|].
    exists g, pv. repeat split; assumption.
Qed.


End KstestSearch.

Lemma kstest_entries_are_backed_witness :
  (length [(Fin (1 # 10), "expon", [1]); (Fin (3 # 10), "norm", [0; 1])]
   <= length toy_all)%nat
  /\ forall r, In r [(Fin (1 # 10), "expon", [1]); (Fin (3 # 10), "norm", [0; 1])] ->
       In (entry_name r) toy_all
       /\ isnan (entry_D r) = false
       /\ exists g pv,
           toy_stats (entry_name r) = Some g
           /\ gen_fit g [1; 2; 3] = Ok (entry_params r)
           /\ toy_kstest [1; 2; 3] (entry_name r) (entry_params r) = Ok (entry_D r, pv)
           /\ fgt pv (p_threshold no_kwargs) = true.
Proof.
  apply (kstest_entries_are_backed toy_stats toy_kstest toy_all [1; 2; 3] None no_kwargs
           [(Fin (1 # 10), "expon", [1]); (Fin (3 # 10), "norm", [0; 1])]).
  reflexivity.
Defined.


(** *** The preamble of the ['p-roc'] test *)

Lemma proc_preamble_run (xs : list Q) (p_thr : Q) (kw : kwargs) :
  xs <> [] ->
  proc_preamble xs p_thr kw
  = if Nat.eqb (count_true (data_positives xs (tail_of kw) p_thr)) 0
    then Raise UnboundLocalError
    else Ok (mk_proc_locals (tail_of kw)
               (data_positives xs (tail_of kw) p_thr)
               (count_true (data_positives xs (tail_of kw) p_thr))).
Proof.
  intros Hne. unfold proc_preamble. fold (tail_of kw). cbv zeta.
  unfold ravel. cbn [data].
  destruct (_pvalue_elementwise (Arr xs)
              (Nonparametric.cdf
                 (Nonparametric.__init__ (mk_ndarray [length xs] xs)))
              (tail_of kw)
              (map (fun v => mean (le_scalar xs v)) xs))
    as (r & Hr & _ & Hflat).
  { apply (vectorize_nonempty _ xs Hne). }
  { apply length_map. }
  rewrite Hr. simpl.
  assert (Hpos : le_thr r p_thr = data_positives xs (tail_of kw) p_thr).
  { unfold le_thr, data_positives. rewrite Hflat, !map_map. reflexivity. }
  rewrite Hpos. reflexivity.
Qed.

Lemma exists_max (l : list Q) :
  l <> [] -> exists m, In m l /\ forall e, In e l -> e <= m.
Proof.
  induction l as [|a l IH]; [congruence|]. intros _.
  destruct l as [|b l].
  - exists a. split; [left; reflexivity|].
    intros e [<- | []]. apply Qle_refl.
  - destruct (IH ltac:(discriminate)) as (m & Hin & Hmax).
    destruct (Qlt_le_dec m a) as [Hlt | Hle].
    + exists a. split; [left; reflexivity|].
      intros e [<- | He]; [apply Qle_refl|].
      apply Qlt_le_weak. eapply Qle_lt_trans; [apply Hmax, He | exact Hlt].
    + exists m. split; [right; exact Hin|].
      intros e [<- | He]; [exact Hle | apply Hmax, He].
Qed.

Lemma count_true_pos {A} (f : A -> bool) (l : list A) (a : A) :
  In a l -> f a = true -> (1 <= count_true (map f l))%nat.
Proof.
  intros Hin Hf. unfold count_true.
  induction l as [|b l IH]; [contradiction|]. simpl.
  destruct Hin as [-> | Hin].
  - rewrite Hf. simpl. lia.
  - destruct (f b); simpl; [lia | apply IH, Hin].
Qed.

Lemma count_true_none {A} (f : A -> bool) (l : list A) :
  (forall a, In a l -> f a = false) -> count_true (map f l) = 0%nat.
Proof.
  intros Hf. unfold count_true.
  induction l as [|b l IH]; [reflexivity|]. simpl.
  rewrite (Hf b (or_introl eq_refl)). apply IH.
  intros a Ha. apply Hf. right. exact Ha.
Qed.

Lemma empirical_cdf_at_max (s : list Q) (m : Q) :
  s <> [] -> (forall e, In e s -> e <= m) -> empirical_cdf s m == 1.
Proof.
  intros Hs Hmax. unfold empirical_cdf, count_le.
  rewrite filter_length_all.
  - field. intros H0.
    assert (Hp : 0 < Q_of_nat (length s)).
    { apply Q_of_nat_pos. destruct s; [congruence | simpl; lia]. }
    rewrite H0 in Hp. apply (Qlt_irrefl 0 Hp).
  - intros e He. apply Qle_bool_iff, Hmax, He.
Qed.

Lemma empirical_cdf_of_sample (s : list Q) (v : Q) :
  In v s -> 1 / Q_of_nat (length s) <= empirical_cdf s v.
Proof.
  intros Hin. unfold empirical_cdf.
  assert (Hp : 0 < Q_of_nat (length s)).
  { apply Q_of_nat_pos. destruct s; [contradiction | simpl; lia]. }
  unfold Qdiv. apply Qmult_le_compat_r.
  - change 1 with (Q_of_nat 1). apply Q_of_nat_le. unfold count_le.
    clear Hp. induction s as [|e s IH]; [contradiction|]. simpl.
    destruct Hin as [-> | Hin].
    + assert (Hv : Qle_bool v v = true) by (apply Qle_bool_iff, Qle_refl).
      rewrite Hv. simpl. lia.
    + destruct (Qle_bool e v); simpl; [lia | apply IH, Hin].
  - apply Qlt_le_weak, Qinv_lt_0_compat, Hp.
Qed.

Section ProcSearch.

Variable scipy_stats : string -> option dist_gen.
Variable kstest : list Q -> string -> list Q -> result (pyfloat * pyfloat).
Variable all_distributions : list string.

#[local] Abbreviation search := (matchDistribution scipy_stats kstest all_distributions).

(** X17.  With [test='p-roc'], the tail ['any'] (the default) or
    ['right'], data with at least one element and a threshold [p >= 0],
    the preamble always finds a positive, the largest element of the
    data, whose p-value is 0; so the search does not raise and returns
    a list. *)
Theorem proc_search_returns (data : list Q) (distributions : option (list string))
        (kw : kwargs) :
  data <> [] ->
  0 <= p_threshold kw ->
  tail_of kw = "any" \/ tail_of kw = "right" ->
  (1 <= count_true (data_positives data (tail_of kw) (p_threshold kw)))%nat
  /\ exists res, search data "p-roc" distributions kw = Ok res.
Proof.
  intros Hne Hp Htail.
  assert (Hpos : (1 <= count_true (data_positives data (tail_of kw) (p_threshold kw)))%nat).
  { destruct (exists_max data Hne) as (m & Hin & Hmax).
    apply (count_true_pos _ data m Hin).
    apply Qle_bool_iff.
    assert (Hone : mean (le_scalar data m) == 1).
    { rewrite mean_le_scalar. apply empirical_cdf_at_max; assumption. }
    assert (Hhalf : Qle_bool (1 # 2) (mean (le_scalar data m)) = true).
    { apply Qle_bool_iff. rewrite Hone. discriminate. }
    unfold tail_value. destruct Htail as [-> | ->]; simpl; rewrite ?Hhalf;
      (setoid_replace (1 - mean (le_scalar data m)) with 0 by (rewrite Hone; ring));
      exact Hp. }
  split; [exact Hpos|].
  unfold matchDistribution, preamble. simpl.
  rewrite (proc_preamble_run data (p_threshold kw) kw Hne).
  destruct (Nat.eqb_spec (count_true (data_positives data (tail_of kw) (p_threshold kw))) 0)
    as [H0 | _]; [lia|].
  simpl. eexists. reflexivity.
Qed.

(** X18.  With [test='p-roc'] and [tail='left'], data of [n >= 1]
    elements and a threshold of at most half of [1/n] have no positive:
    every element has at least itself at or below it, so its p-value is
    at least [1/n] (the factor two leaves room for the rounding of the
    quotient).  The search then fails before any candidate is tried,
    and not with the [ValueError] it means to raise: the message is
    formatted with the local [p], which is not bound yet, so an
    [UnboundLocalError] comes out. *)
Theorem proc_search_no_positives (data : list Q)
        (distributions : option (list string)) (kw : kwargs) :
  data <> [] ->
  tail_of kw = "left" ->
  2 * p_threshold kw <= 1 / Q_of_nat (length data) ->
  search data "p-roc" distributions kw = Raise UnboundLocalError.
Proof.
  intros Hne Htail Hmargin.
  assert (Hinv : 0 < 1 / Q_of_nat (length data)).
  { unfold Qdiv. rewrite Qmult_1_l. apply Qinv_lt_0_compat, Q_of_nat_pos.
    destruct data; [congruence | simpl; lia]. }
  assert (Hthr : p_threshold kw < 1 / Q_of_nat (length data)) by lra.
  assert (Hzero : count_true (data_positives data (tail_of kw) (p_threshold kw)) = 0%nat).
  { apply count_true_none. intros v Hv.
    destruct (Qle_bool (tail_value (tail_of kw) (mean (le_scalar data v)))
                       (p_threshold kw)) eqn:E; [|reflexivity].
    apply Qle_bool_iff in E. rewrite Htail in E. unfold tail_value in E. simpl in E.
    rewrite mean_le_scalar in E.
    assert (Hge := empirical_cdf_of_sample data v Hv).
    exfalso. apply (Qlt_irrefl (p_threshold kw)).
    eapply Qlt_le_trans; [exact Hthr|]. eapply Qle_trans; eassumption. }
  unfold matchDistribution, preamble. simpl.
  rewrite (proc_preamble_run data (p_threshold kw) kw Hne), Hzero. reflexivity.
Qed.

End ProcSearch.

Lemma proc_search_returns_witness :
  le 1 (count_true (data_positives [1; 2; 3] (tail_of no_kwargs)
                                   (p_threshold no_kwargs)))
  /\ exists res,
      matchDistribution toy_stats toy_kstest toy_all [1; 2; 3] "p-roc" None no_kwargs
      = Ok res.
Proof.
  apply (proc_search_returns toy_stats toy_kstest toy_all [1; 2; 3] None no_kwargs).
  - discriminate.
  - vm_compute. discriminate.
  - left. reflexivity.
Defined.

Lemma proc_search_no_positives_witness :
  matchDistribution toy_stats toy_kstest toy_all [1; 2; 3] "p-roc" None
                    (mk_kwargs None (Some "left"))
  = Raise UnboundLocalError.
Proof.
  apply (proc_search_no_positives toy_stats toy_kstest toy_all [1; 2; 3] None
           (mk_kwargs None (Some "left"))).
  - discriminate.
  - reflexivity.
  - vm_compute. discriminate.
Defined.

Example proc_search_run :
  exists D,
    matchDistribution toy_stats toy_kstest toy_all [1; 2; 3] "p-roc" None no_kwargs
    = Ok [(Fin D, "expon", [1]); (Fin D, "norm", [0; 1])]
    /\ D == 2.
Proof.
  eexists. split; [vm_compute; reflexivity | reflexivity].
Qed.

Section SearchErrors.

Variable scipy_stats : string -> option dist_gen.
Variable kstest : list Q -> string -> list Q -> result (pyfloat * pyfloat).
Variable all_distributions : list string.

#[local] Abbreviation search := (matchDistribution scipy_stats kstest all_distributions).

(** X19.  The exceptions of [matchDistribution] on data with at least
    one element.  It raises [ValueError] exactly when [test] is neither
    ['p-roc'] nor ['kstest']; the only other exception it can raise is
    the [UnboundLocalError] of the ['p-roc'] preamble.  Nothing raised
    for a candidate (by the lookup, the fit, the cdf or the test)
    reaches the caller. *)
Theorem matchDistribution_errors (xs : list Q) (test : string)
        (distributions : option (list string)) (kw : kwargs) :
  xs <> [] ->
  (search xs test distributions kw = Raise ValueError
   <-> ~ In test ["p-roc"; "kstest"])
  /\ (forall e, search xs test distributions kw = Raise e ->
                e = ValueError \/ (e = UnboundLocalError /\ test = "p-roc")).
Proof.
  intros Hne.
  assert (Hknown : existsb (String.eqb test) ["p-roc"; "kstest"] = true
                   <-> In test ["p-roc"; "kstest"]).
  { rewrite existsb_exists. split.
    - intros (s & Hin & Heq). apply String.eqb_eq in Heq. subst s. exact Hin.
    - intros Hin. exists test. split; [exact Hin | apply String.eqb_refl]. }
  unfold matchDistribution.
  destruct (existsb (String.eqb test) ["p-roc"; "kstest"]) eqn:E; simpl.
  - assert (Hin : In test ["p-roc"; "kstest"]) by (apply Hknown; reflexivity).
    unfold preamble. destruct (test =? "p-roc") eqn:Ep.
    + apply String.eqb_eq in Ep.
      rewrite (proc_preamble_run xs (p_threshold kw) kw Hne).
      destruct (Nat.eqb _ 0); simpl.
      * split; [split; [discriminate | contradiction]|].
        intros e [= <-]. right. split; [reflexivity | exact Ep].
      * split; [split; [discriminate | contradiction]|].
        intros e [=].
    + simpl. split; [split; [discriminate | contradiction]|].
      intros e [=].
  - split; [split|].
    + intros _ Hin. apply Hknown in Hin. discriminate.
    + reflexivity.
    + intros e [= <-]. left. reflexivity.
Qed.

End SearchErrors.

Lemma matchDistribution_errors_witness :
  (matchDistribution toy_stats toy_kstest toy_all [1; 2; 3] "chi2" None no_kwargs
   = Raise ValueError
   <-> ~ In "chi2" ["p-roc"; "kstest"])
  /\ (forall e,
         matchDistribution toy_stats toy_kstest toy_all [1; 2; 3] "chi2" None no_kwargs
         = Raise e ->
         e = ValueError \/ (e = UnboundLocalError /\ "chi2" = "p-roc")).
Proof.
  apply (matchDistribution_errors toy_stats toy_kstest toy_all [1; 2; 3] "chi2"
           None no_kwargs).
  discriminate.
Defined.

(** ** The samples as a multiset *)

Lemma filter_Permutation_length {A} (f : A -> bool) (l l' : list A) :
  Permutation l l' -> length (filter f l) = length (filter f l').
Proof.
  induction 1 as [| a l l' _ IH | a b l | l l' l'' _ IH1 _ IH2]; simpl.
  - reflexivity.
  - destruct (f a); simpl; rewrite IH; reflexivity.
  - destruct (f a), (f b); reflexivity.
  - rewrite IH1. exact IH2.
Qed.

(** X20.  [Nonparametric.cdf] depends on the stored samples (at least
    one) as a multiset only: two distributions whose samples are
    permutations of each other answer alike, so the order in which measurements were
    recorded does not matter; and between two values with no sample in
    between (greater than the lower, at most the upper) the cdf is
    constant. *)
Theorem Nonparametric_cdf_order_free (self other : Nonparametric.t) (x : Q) :
  Nonparametric._dist_samples self <> [] ->
  Permutation (Nonparametric._dist_samples self) (Nonparametric._dist_samples other) ->
  exists q q',
    Nonparametric.cdf self (Scalar x) = Ok (Scalar q)
    /\ Nonparametric.cdf other (Scalar x) = Ok (Scalar q')
    /\ q == q'
    /\ forall y,
        x <= y ->
        (forall e, In e (Nonparametric._dist_samples self) -> e <= y -> e <= x) ->
        exists qy, Nonparametric.cdf self (Scalar y) = Ok (Scalar qy) /\ qy == q.
Proof.
  intros _ Hperm. eexists. eexists. split; [reflexivity|]. split; [reflexivity|].
  split.
  - rewrite !mean_le_scalar. unfold empirical_cdf, count_le.
    rewrite (filter_Permutation_length _ _ _ Hperm), (Permutation_length Hperm).
    reflexivity.
  - intros y Hxy Hgap. eexists. split; [reflexivity|].
    rewrite !mean_le_scalar. unfold empirical_cdf, count_le.
    assert (Hf : filter (fun e => Qle_bool e y) (Nonparametric._dist_samples self)
                 = filter (fun e => Qle_bool e x) (Nonparametric._dist_samples self)).
    { apply filter_ext_in. intros e He.
      destruct (Qle_bool e x) eqn:Ex.
      - apply Qle_bool_iff. apply Qle_bool_iff in Ex. eapply Qle_trans; eassumption.
      - destruct (Qle_bool e y) eqn:Ey; [|reflexivity].
        apply Qle_bool_iff in Ey. apply (Hgap e He) in Ey.
        apply Qle_bool_iff in Ey. congruence. }
    rewrite Hf. reflexivity.
Qed.

Lemma Nonparametric_cdf_order_free_witness :
  exists q q',
    Nonparametric.cdf (Nonparametric.mk [1; 2; 3]) (Scalar 2) = Ok (Scalar q)
    /\ Nonparametric.cdf (Nonparametric.mk [2; 1; 3]) (Scalar 2) = Ok (Scalar q')
    /\ q == q'
    /\ forall y,
        2 <= y ->
        (forall e, In e [1; 2; 3] -> e <= y -> e <= 2) ->
        exists qy, Nonparametric.cdf (Nonparametric.mk [1; 2; 3]) (Scalar y)
                   = Ok (Scalar qy) /\ qy == q.
Proof.
  apply (Nonparametric_cdf_order_free (Nonparametric.mk [1; 2; 3])
           (Nonparametric.mk [2; 1; 3]) 2).
  - discriminate.
  - simpl. apply perm_swap.
Defined.
